(** * Office book-lending tracker: the rental and book-lifecycle handlers

    A shallow embedding of the route handlers of the application
    (/api/books, /api/books/my, /api/books/[id], /api/books/[id]/rent,
    /api/rentals/my) and of the client-side "my rentals" aggregation of the
    My Books page, followed by the properties of the rental state machine.

    The persistent store is a record of three tables keyed by primary key
    ([gmap string row]).  Handlers are written in a small state-and-exception
    monad: a store operation may throw, the store keeps the writes made
    before the throw (the handlers open no transaction), and the handler's
    [try]/[catch] turns the exception into a 500 response. *)

From Stdlib Require Import ZArith PrimFloat.
From stdpp Require Import gmap strings list fin_maps sorting.

Local Open Scope string_scope.
Local Open Scope Z_scope.

(** ** Tables *)

Record UserRow := mkUserRow {
  user_name : option string;
  user_image : option string
}.

Record BookRow := mkBookRow {
  title : string;
  author : string;
  isbn : option string;
  description : option string;
  coverImage : option string;
  ownerId : string;
  createdAt : Z
}.

(** Timestamps are milliseconds since the epoch; [returnedAt = None] is the
    SQL null of an open rental. *)
Record RentalRow := mkRentalRow {
  bookId : string;
  userId : string;
  rentedAt : Z;
  returnedAt : option Z
}.

Record Store := mkStore {
  users : gmap string UserRow;
  books : gmap string BookRow;
  rentals : gmap string RentalRow
}.

Global Instance UserRow_eq_dec : EqDecision UserRow.
Proof. solve_decision. Defined.
Global Instance BookRow_eq_dec : EqDecision BookRow.
Proof. solve_decision. Defined.
Global Instance RentalRow_eq_dec : EqDecision RentalRow.
Proof. solve_decision. Defined.

(** ** Query results (rows with their included relations) *)

(** [select: { id, name, image }] on a user relation. *)
Record UserSel := mkUserSel {
  u_id : string;
  name : option string;
  image : option string
}.

(** A rental with [include: { user }]. *)
Record RentalWithUser := mkRentalWithUser {
  r_id : string;
  r_row : RentalRow;
  user : UserSel
}.

(** A book with [include: { owner, rentals }]. *)
Record BookWithRentals := mkBookWithRentals {
  b_id : string;
  b_row : BookRow;
  owner : UserSel;
  b_rentals : list RentalWithUser
}.

(** [{ ...book, isAvailable, currentRental }]. *)
Record BookWithStatus := mkBookWithStatus {
  book : BookWithRentals;
  isAvailable : bool;
  currentRental : option RentalWithUser
}.

(** A book with [include: { owner }] only. *)
Record BookWithOwner := mkBookWithOwner {
  bo_id : string;
  bo_row : BookRow;
  bo_owner : UserSel
}.

(** A rental with [include: { book: true, user }]; the book is the row the
    rental refers to. *)
Record RentalWithBook := mkRentalWithBook {
  rb_rental : RentalWithUser;
  rb_book : option (string * BookRow)
}.

(** A rental with [include: { book: { include: { owner } }, user }]. *)
Record RentalWithBookOwner := mkRentalWithBookOwner {
  rbo_rental : RentalWithUser;
  rbo_book : option BookWithOwner
}.

(** ** Sorting ([orderBy: { key: "desc" }] and the client's [Array.sort]) *)

(** A stable insertion sort, descending on an integer key: an element is put
    in front of the first element whose key is not greater than its own, so
    elements with equal keys keep their order. *)
Fixpoint insert_desc {A} (key : A → Z) (x : A) (l : list A) : list A :=
  match l with
  | [] => [x]
  | y :: l' =>
      if key x <? key y then y :: insert_desc key x l' else x :: y :: l'
  end.

Definition sort_desc {A} (key : A → Z) (l : list A) : list A :=
  foldr (insert_desc key) [] l.

(** ** JSON values *)

(** What [request.json()] yields for a member of the body; an absent member
    ([undefined]) is [None] of [option JsonValue]. *)
#[local] Unset Elimination Schemes.
Inductive JsonValue :=
  | JNull
  | JBool (b : bool)
  | JNumber (x : float)
  | JString (x : string)
  | JArray (items : list JsonValue)
  | JObject (members : list (string * JsonValue)).
#[local] Set Elimination Schemes.

(** JavaScript truthiness, the test behind [!value]: [undefined], [null],
    [false], zero, [NaN] and the empty string are falsy. *)
Definition truthy_json (v : option JsonValue) : bool :=
  match v with
  | None | Some JNull => false
  | Some (JBool b) => b
  | Some (JNumber x) => negb (PrimFloat.eqb x 0%float || PrimFloat.is_nan x)
  | Some (JString x) => negb (String.eqb x "")
  | Some (JArray _) | Some (JObject _) => true
  end.

(** ** The store monad *)

(** Errors thrown by the store client. *)
Inductive PrismaError :=
  | UniqueConstraintFailed        (* P2002: primary key already present *)
  | ForeignKeyConstraintFailed    (* P2003: a reference without its row *)
  | RecordNotFound                (* P2025: no row for update / delete *)
  | ValidationError.              (* a value of the wrong type in [data] *)

Definition Db (A : Type) : Type := Store → Store * (PrismaError + A).

Definition ret {A} (x : A) : Db A := λ s, (s, inr x).
Definition bind {A B} (m : Db A) (k : A → Db B) : Db B :=
  λ s, match m s with
       | (s', inr x) => k x s'
       | (s', inl e) => (s', inl e)
       end.
Definition get_store : Db Store := λ s, (s, inr s).

Notation "'let!' x ':=' m 'in' k" := (bind m (λ x, k))
  (at level 10, x pattern, m at level 100, k at level 200, only parsing).

(** ** Store operations *)

(** The joined user of a required relation. The foreign key is enforced by
    the store, so the joined row is the one whose primary key is the
    reference; [name] and [image] are nullable columns. *)
Definition select_user (s : Store) (uid : string) : UserSel :=
  {| u_id := uid;
     name := users s !! uid ≫= user_name;
     image := users s !! uid ≫= user_image |}.

Definition include_user (s : Store) (r : string * RentalRow) : RentalWithUser :=
  {| r_id := r.1; r_row := r.2; user := select_user s (userId r.2) |}.

Definition include_owner (s : Store) (b : string * BookRow) : BookWithOwner :=
  {| bo_id := b.1; bo_row := b.2; bo_owner := select_user s (ownerId b.2) |}.

(** [prisma.rental.findMany({ where })]: the rows satisfying the filter, in
    the enumeration order of the table (the store promises none). *)
Definition rental_findMany (P : string * RentalRow → Prop)
    `{∀ r, Decision (P r)} : Db (list (string * RentalRow)) :=
  λ s, (s, inr (filter P (map_to_list (rentals s)))).

(** [prisma.rental.findFirst({ where })], called without [orderBy]: the
    store promises no order, the model takes the first matching row of the
    enumeration of the table. What is proved of a handler that calls it either
    holds of whichever matching row is taken, or assumes that a single row
    matches ([findFirst_any_order] below). *)
Definition rental_findFirst (P : string * RentalRow → Prop)
    `{∀ r, Decision (P r)} : Db (option (string * RentalRow)) :=
  λ s, (s, inr (head (filter P (map_to_list (rentals s))))).

(** The [where] clauses used by the handlers. *)
Definition of_book (id : string) (r : string * RentalRow) : Prop :=
  bookId r.2 = id.
Definition active_of_book (id : string) (r : string * RentalRow) : Prop :=
  bookId r.2 = id ∧ returnedAt r.2 = None.
Definition of_user (uid : string) (r : string * RentalRow) : Prop :=
  userId r.2 = uid.

Global Instance of_book_dec id r : Decision (of_book id r).
Proof. unfold of_book; apply _. Defined.
Global Instance active_of_book_dec id r : Decision (active_of_book id r).
Proof. unfold active_of_book; apply _. Defined.
Global Instance of_user_dec uid r : Decision (of_user uid r).
Proof. unfold of_user; apply _. Defined.

(** [prisma.book.findUnique({ where: { id } })]. *)
Definition book_findUnique (id : string) : Db (option BookRow) :=
  λ s, (s, inr (books s !! id)).

(** [prisma.book.findMany({ orderBy: { createdAt: "desc" } })], optionally
    restricted to one owner. *)
Definition book_findMany (P : string * BookRow → Prop)
    `{∀ b, Decision (P b)} : Db (list (string * BookRow)) :=
  λ s, (s, inr (sort_desc (λ b, createdAt b.2)
                  (filter P (map_to_list (books s))))).

(** The [data] of [prisma.book.create], as the handler passes it on: the
    members of the request body, unchecked, and the owner. *)
Record BookCreateInput := mkBookCreateInput {
  data_title : option JsonValue;
  data_author : option JsonValue;
  data_isbn : option JsonValue;
  data_description : option JsonValue;
  data_coverImage : option JsonValue;
  data_ownerId : string
}.

(** The value of a required string column: a string, nothing else. *)
Definition required_string (v : option JsonValue) : option string :=
  match v with
  | Some (JString x) => Some x
  | _ => None
  end.

(** The value of an optional string column: [undefined] and [null] are
    stored as null, a string as itself, anything else is refused. *)
Definition optional_string (v : option JsonValue) : option (option string) :=
  match v with
  | None | Some JNull => Some None
  | Some (JString x) => Some (Some x)
  | _ => None
  end.

(** Modelled from the spec: the schema of the store is not part of the
    sources. The store checks the types of [data] (title, author and cover
    image are strings, ISBN and description optional strings) and enforces
    the foreign key from a book to its owner. A new row gets a generated
    identifier ([newId], an input of the operation) and the current time
    [now] as [createdAt]; the identifier is the primary key, so a create
    with an identifier already present is rejected. *)
Definition book_create (newId : string) (data : BookCreateInput) (now : Z)
    : Db (string * BookRow) :=
  λ s, match required_string (data_title data),
             required_string (data_author data),
             optional_string (data_isbn data),
             optional_string (data_description data),
             required_string (data_coverImage data) with
       | Some t, Some a, Some i, Some d, Some c =>
           match users s !! data_ownerId data with
           | None => (s, inl ForeignKeyConstraintFailed)
           | Some _ =>
               match books s !! newId with
               | Some _ => (s, inl UniqueConstraintFailed)
               | None =>
                   let b := {| title := t; author := a; isbn := i;
                               description := d; coverImage := Some c;
                               ownerId := data_ownerId data;
                               createdAt := now |} in
                   ({| users := users s; books := <[newId := b]> (books s);
                       rentals := rentals s |}, inr (newId, b))
               end
           end
       | _, _, _, _, _ => (s, inl ValidationError)
       end.

(** Modelled from the spec: as for books, the rental schema is not part of
    the sources. The store enforces the foreign keys from a rental to its
    renter and to its book; [prisma.rental.create] stores the row under the
    generated identifier, which must be new. *)
Definition rental_create (newId : string) (r : RentalRow)
    : Db (string * RentalRow) :=
  λ s, match users s !! userId r, books s !! bookId r with
       | Some _, Some _ =>
           match rentals s !! newId with
           | Some _ => (s, inl UniqueConstraintFailed)
           | None =>
               ({| users := users s; books := books s;
                   rentals := <[newId := r]> (rentals s) |}, inr (newId, r))
           end
       | _, _ => (s, inl ForeignKeyConstraintFailed)
       end.

(** [prisma.rental.update({ where: { id }, data: { returnedAt } })]. *)
Definition rental_update_returnedAt (rid : string) (t : Z)
    : Db (string * RentalRow) :=
  λ s, match rentals s !! rid with
       | None => (s, inl RecordNotFound)
       | Some r =>
           let r' := {| bookId := bookId r; userId := userId r;
                        rentedAt := rentedAt r; returnedAt := Some t |} in
           ({| users := users s; books := books s;
               rentals := <[rid := r']> (rentals s) |}, inr (rid, r'))
       end.

(** [prisma.rental.deleteMany({ where: { bookId: id } })]. *)
Definition rental_deleteMany (id : string) : Db unit :=
  λ s, ({| users := users s; books := books s;
           rentals := filter (λ r, ¬ of_book id r) (rentals s) |}, inr tt).

(** [prisma.book.delete({ where: { id } })]. Modelled from the spec: the
    store enforces the foreign key from a rental to its book and leaves the
    cascade to the caller, so a book that a rental still refers to cannot be
    deleted. *)
Definition book_delete (id : string) : Db unit :=
  λ s, match books s !! id with
       | None => (s, inl RecordNotFound)
       | Some _ =>
           match filter (of_book id) (map_to_list (rentals s)) with
           | _ :: _ => (s, inl ForeignKeyConstraintFailed)
           | [] =>
               ({| users := users s; books := delete id (books s);
                   rentals := rentals s |}, inr tt)
           end
       end.

(** ** Requests and responses *)

(** The session object of the authentication provider; the handlers read
    [session?.user?.id]. *)
Record SessionUser := mkSessionUser { su_id : option string }.
Record Session := mkSession { s_user : option SessionUser }.

(** JavaScript truthiness of a value that is a string, [null] or
    [undefined]: only a non-empty string is truthy. *)
Definition truthy (v : option string) : bool :=
  match v with
  | Some x => negb (String.eqb x "")
  | None => false
  end.

(** [session?.user?.id], kept only when it passes the handlers' guard
    [if (!session?.user?.id) return 401]. *)
Definition session_user_id (session : option Session) : option string :=
  let v := (session ≫= s_user) ≫= su_id in
  if truthy v then v else None.

(** The members that [POST /api/books] destructures from the parsed body of
    the request, each an arbitrary JSON value or absent. *)
Record CreateBody := mkCreateBody {
  body_title : option JsonValue;
  body_author : option JsonValue;
  body_isbn : option JsonValue;
  body_description : option JsonValue;
  body_coverImage : option JsonValue
}.

Inductive Body :=
  | ErrorBody (error : string)
  | BooksBody (l : list BookWithStatus)
  | BookBody (b : BookWithStatus)
  | OwnedBooksBody (l : list BookWithRentals)
  | CreatedBookBody (b : BookWithOwner)
  | RentalBody (r : RentalWithBook)
  | RentalsBody (l : list RentalWithBookOwner)
  | SuccessBody (success : bool).

Record Response := mkResponse { status : Z; body : Body }.

Definition json (b : Body) : Response := {| status := 200; body := b |}.
Definition json_status (b : Body) (st : Z) : Response :=
  {| status := st; body := b |}.

(** [try { ... } catch (error) { return fallback }]. *)
Definition try_catch (m : Db Response) (fallback : Response)
    : Store → Response * Store :=
  λ s, match m s with
       | (s', inr r) => (r, s')
       | (s', inl _) => (fallback, s')
       end.

(** The error taxonomy of the handlers. *)
Definition Unauthorized : Response :=
  json_status (ErrorBody "Unauthorized") 401.
Definition BookNotFound : Response :=
  json_status (ErrorBody "Book not found") 404.
Definition NoActiveRental : Response :=
  json_status (ErrorBody "No active rental found for this book") 404.
Definition OnlyOwnerCanDelete : Response :=
  json_status (ErrorBody "Only the owner can delete this book") 403.
Definition OnlyRenterCanReturn : Response :=
  json_status (ErrorBody "You can only return books you have rented") 403.
Definition AlreadyRented : Response :=
  json_status (ErrorBody "Book is already rented") 400.
Definition FieldsRequired : Response :=
  json_status (ErrorBody "Title, author and cover image are required") 400.
Definition Internal (msg : string) : Response :=
  json_status (ErrorBody msg) 500.

(** ** GET and POST /api/books, GET /api/books/my *)

(** The [include] of the list query: the owner and the rentals with a null
    [returnedAt], each with its user. *)
Definition include_owner_active_rentals (s : Store) (b : string * BookRow)
    : BookWithRentals :=
  {| b_id := b.1; b_row := b.2;
     owner := select_user s (ownerId b.2);
     b_rentals :=
       include_user s <$> filter (active_of_book b.1) (map_to_list (rentals s)) |}.

(** [{ ...book, isAvailable: book.rentals.length === 0,
       currentRental: book.rentals[0] || null }]. *)
Definition with_status (b : BookWithRentals) : BookWithStatus :=
  {| book := b;
     isAvailable := bool_decide (length (b_rentals b) = 0%nat);
     currentRental := head (b_rentals b) |}.

Definition all_books (b : string * BookRow) : Prop := True.
Global Instance all_books_dec b : Decision (all_books b).
Proof. unfold all_books; apply _. Defined.

Definition owned_by (uid : string) (b : string * BookRow) : Prop :=
  ownerId b.2 = uid.
Global Instance owned_by_dec uid b : Decision (owned_by uid b).
Proof. unfold owned_by; apply _. Defined.

(** GET /api/books?available=... ; [available] is
    [searchParams.get("available")]. *)
Definition books_GET (available : option string) : Store → Response * Store :=
  try_catch
    (let! rows := book_findMany all_books in
     let! s := get_store in
     let books := include_owner_active_rentals s <$> rows in
     let filteredBooks :=
       if decide (available = Some "true") then
         filter (λ b, length (b_rentals b) = 0%nat) books
       else if decide (available = Some "false") then
         filter (λ b, (0 < length (b_rentals b))%nat) books
       else books in
     let booksWithStatus := with_status <$> filteredBooks in
     ret (json (BooksBody booksWithStatus)))
    (Internal "Failed to fetch books").

(** POST /api/books; [newId] and [now] are the identifier and the creation
    time the store gives the new row. *)
Definition books_POST (session : option Session) (request : CreateBody)
    (newId : string) (now : Z) : Store → Response * Store :=
  match session_user_id session with
  | None => λ s, (Unauthorized, s)
  | Some uid =>
      try_catch
        (if negb (truthy_json (body_title request))
            || negb (truthy_json (body_author request))
            || negb (truthy_json (body_coverImage request))
         then ret FieldsRequired
         else
           let! created :=
             book_create newId
               {| data_title := body_title request;
                  data_author := body_author request;
                  data_isbn := body_isbn request;
                  data_description := body_description request;
                  data_coverImage := body_coverImage request;
                  data_ownerId := uid |} now in
           let! s := get_store in
           ret (json_status (CreatedBookBody (include_owner s created)) 201))
        (Internal "Failed to create book")
  end.

(** GET /api/books/my. *)
Definition books_my_GET (session : option Session) : Store → Response * Store :=
  match session_user_id session with
  | None => λ s, (Unauthorized, s)
  | Some uid =>
      try_catch
        (let! rows := book_findMany (owned_by uid) in
         let! s := get_store in
         ret (json (OwnedBooksBody (include_owner_active_rentals s <$> rows))))
        (Internal "Failed to fetch books")
  end.

(** ** GET and DELETE /api/books/[id] *)

(** GET /api/books/[id]: the book with its full rental history, newest
    first; the active rental is the first one without a return date. *)
Definition book_GET (id : string) : Store → Response * Store :=
  try_catch
    (let! found := book_findUnique id in
     match found with
     | None => ret BookNotFound
     | Some row =>
         let! history := rental_findMany (of_book id) in
         let! s := get_store in
         let book :=
           {| b_id := id; b_row := row;
              owner := select_user s (ownerId row);
              b_rentals :=
                include_user s <$> sort_desc (λ r, rentedAt r.2) history |} in
         let activeRental :=
           head (filter (λ r, returnedAt (r_row r) = None) (b_rentals book)) in
         ret (json (BookBody
                      {| book := book;
                         isAvailable := bool_decide (activeRental = None);
                         currentRental := activeRental |}))
     end)
    (Internal "Failed to fetch book").

(** DELETE /api/books/[id]. *)
Definition book_DELETE (session : option Session) (id : string)
    : Store → Response * Store :=
  match session_user_id session with
  | None => λ s, (Unauthorized, s)
  | Some uid =>
      try_catch
        (let! found := book_findUnique id in
         match found with
         | None => ret BookNotFound
         | Some row =>
             if decide (ownerId row ≠ uid) then ret OnlyOwnerCanDelete
             else
               let! _ := rental_deleteMany id in
               let! _ := book_delete id in
               ret (json (SuccessBody true))
         end)
        (Internal "Failed to delete book")
  end.


(** ** POST and DELETE /api/books/[id]/rent *)

Definition include_book (s : Store) (r : string * RentalRow) : RentalWithBook :=
  {| rb_rental := include_user s r;
     rb_book := (λ b, (bookId r.2, b)) <$> books s !! bookId r.2 |}.

(** POST /api/books/[id]/rent. *)
Definition rent_POST (session : option Session) (id : string)
    (newId : string) (now : Z) : Store → Response * Store :=
  match session_user_id session with
  | None => λ s, (Unauthorized, s)
  | Some uid =>
      try_catch
        (let! found := book_findUnique id in
         match found with
         | None => ret BookNotFound
         | Some _ =>
             let! open_rentals := rental_findMany (active_of_book id) in
             if decide (0 < length open_rentals)%nat then ret AlreadyRented
             else
               let! rental :=
                 rental_create newId
                   {| bookId := id; userId := uid;
                      rentedAt := now; returnedAt := None |} in
               let! s := get_store in
               ret (json_status (RentalBody (include_book s rental)) 201)
         end)
        (Internal "Failed to rent book")
  end.

(** DELETE /api/books/[id]/rent. *)
Definition rent_DELETE (session : option Session) (id : string) (now : Z)
    : Store → Response * Store :=
  match session_user_id session with
  | None => λ s, (Unauthorized, s)
  | Some uid =>
      try_catch
        (let! activeRental := rental_findFirst (active_of_book id) in
         match activeRental with
         | None => ret NoActiveRental
         | Some (rid, row) =>
             if decide (userId row ≠ uid) then ret OnlyRenterCanReturn
             else
               let! rental := rental_update_returnedAt rid now in
               let! s := get_store in
               ret (json (RentalBody (include_book s rental)))
         end)
        (Internal "Failed to return book")
  end.

(** ** GET /api/rentals/my *)

Definition include_book_owner (s : Store) (r : string * RentalRow)
    : RentalWithBookOwner :=
  {| rbo_rental := include_user s r;
     rbo_book :=
       (λ b, include_owner s (bookId r.2, b)) <$> books s !! bookId r.2 |}.

(** GET /api/rentals/my: the caller's rentals, open and returned, newest
    first. *)
Definition rentals_my_GET (session : option Session)
    : Store → Response * Store :=
  match session_user_id session with
  | None => λ s, (Unauthorized, s)
  | Some uid =>
      try_catch
        (let! rows := rental_findMany (of_user uid) in
         let! s := get_store in
         ret (json (RentalsBody
                      (include_book_owner s
                         <$> sort_desc (λ r, rentedAt r.2) rows))))
        (Internal "Failed to fetch rentals")
  end.

(** ** The My Books page: [MyBooksPage.fetchData] *)

(** [{ ...rental, book }]. *)
Definition ClientRental : Type := RentalWithUser * BookWithStatus.

(** The body of the loop over [allBooks]. Every book of the list response
    has a [rentals] array, so the guard [if (book.rentals)] holds. *)
Definition collect_book (me : string) (rentals : list ClientRental)
    (b : BookWithStatus) : list ClientRental :=
  let rentals :=
    foldl (λ acc rental,
             if decide (u_id (user rental) = me)
             then (acc ++ [(rental, b)])%list else acc)
          rentals (b_rentals (book b)) in
  match currentRental b with
  | Some cur =>
      if decide (u_id (user cur) = me) then
        let exists_ :=
          existsb (λ r, bool_decide (r_id r.1 = r_id cur)) rentals in
        if exists_ then rentals else (rentals ++ [(cur, b)])%list
      else rentals
  | None => rentals
  end.

(** The list handed to [setMyRentals]. *)
Definition my_rentals (me : string) (allBooks : list BookWithStatus)
    : list ClientRental :=
  sort_desc (λ r, rentedAt (r_row r.1)) (foldl (collect_book me) [] allBooks).

(** The list handed to [setMyBooks]. *)
Definition my_books (me : string) (allBooks : list BookWithStatus)
    : list BookWithStatus :=
  filter (λ b, u_id (owner (book b)) = me) allBooks.

(** [fetchData]: nothing is set without a session user or when the request
    fails; otherwise the pair (myBooks, myRentals). *)
Definition fetchData (session : option Session) (s : Store)
    : option (list BookWithStatus * list ClientRental) :=
  match session_user_id session with
  | None => None
  | Some me =>
      let response := (books_GET None s).1 in
      if decide (200 ≤ status response < 300) then
        match body response with
        | BooksBody allBooks => Some (my_books me allBooks, my_rentals me allBooks)
        | _ => None
        end
      else None
  end.

(** ** The operations of the HTTP surface as a transition system *)

Inductive Op :=
  | List (available : option string)
  | Create (session : option Session) (request : CreateBody)
           (newId : string) (now : Z)
  | MyBooks (session : option Session)
  | Get (id : string)
  | Delete (session : option Session) (id : string)
  | Rent (session : option Session) (id : string) (newId : string) (now : Z)
  | Return (session : option Session) (id : string) (now : Z)
  | MyRentals (session : option Session).

Definition handle (op : Op) : Store → Response * Store :=
  match op with
  | List available => books_GET available
  | Create session request newId now => books_POST session request newId now
  | MyBooks session => books_my_GET session
  | Get id => book_GET id
  | Delete session id => book_DELETE session id
  | Rent session id newId now => rent_POST session id newId now
  | Return session id now => rent_DELETE session id now
  | MyRentals session => rentals_my_GET session
  end.

Definition step (s : Store) (op : Op) : Store := (handle op s).2.

Definition run (ops : list Op) (s : Store) : Store := foldl step s ops.


(** ** Vocabulary of the properties *)

(** [rid] is an open rental of book [id]: a row of the rental table that
    refers to the book and has a null [returnedAt]. *)
Definition active (s : Store) (id rid : string) (r : RentalRow) : Prop :=
  rentals s !! rid = Some r ∧ bookId r = id ∧ returnedAt r = None.

(** [rid] is the one open rental of book [id]. *)
Definition unique_active (s : Store) (id rid : string) (r : RentalRow) : Prop :=
  active s id rid r ∧ ∀ rid' r', active s id rid' r' → rid' = rid.

Definition no_active (s : Store) (id : string) : Prop :=
  ∀ rid r, ¬ active s id rid r.

(** The active-rental invariant of the data model. *)
Definition single_active (s : Store) : Prop :=
  ∀ id rid r rid' r', active s id rid r → active s id rid' r' → rid' = rid.

(** The row written by a return. *)
Definition returned (r : RentalRow) (t : Z) : RentalRow :=
  {| bookId := bookId r; userId := userId r;
     rentedAt := rentedAt r; returnedAt := Some t |}.

(** A session whose user id is [uid]. *)
Definition signed_in (uid : string) : option Session :=
  Some {| s_user := Some {| su_id := Some uid |} |}.

(** Descending on the key. *)
Definition sorted_desc {A} (key : A → Z) (l : list A) : Prop :=
  Sorted (λ x y, key y ≤ key x) l.

(** A book as the list operation serializes it. *)
Definition book_view (s : Store) (b : string * BookRow) : BookWithStatus :=
  with_status (include_owner_active_rentals s b).

(** The books in the body of the list response. *)
Definition listed (available : option string) (s : Store)
    : list BookWithStatus :=
  match body (books_GET available s).1 with
  | BooksBody l => l
  | _ => []
  end.

(** The derived fields of a serialized book agree with the rental table. *)
Definition derived_fields_ok (s : Store) (v : BookWithStatus) : Prop :=
  let id := b_id (book v) in
  (isAvailable v = true ↔ no_active s id)
  ∧ (currentRental v = None ↔ no_active s id)
  ∧ (∀ x, currentRental v = Some x →
       active s id (r_id x) (r_row x) ∧ x = include_user s (r_id x, r_row x))
  ∧ (∀ rid r, unique_active s id rid r →
       currentRental v = Some (include_user s (rid, r))).

(** ** Example stores *)

Definition users_ex : gmap string UserRow :=
  {[ "u1" := {| user_name := Some "Ann"; user_image := None |};
     "u2" := {| user_name := Some "Bob"; user_image := None |} ]}.

Definition book_ex : BookRow :=
  {| title := "SICP"; author := "Abelson"; isbn := None; description := None;
     coverImage := Some "sicp.png"; ownerId := "u1"; createdAt := 5 |}.

Definition open_rental : RentalRow :=
  {| bookId := "b1"; userId := "u2"; rentedAt := 10; returnedAt := None |}.

(** Book b1 of Ann, never rented. *)
Definition store_available : Store :=
  {| users := users_ex; books := {[ "b1" := book_ex ]}; rentals := ∅ |}.

(** Book b1 of Ann, rented by Bob. *)
Definition store_rented : Store :=
  {| users := users_ex; books := {[ "b1" := book_ex ]};
     rentals := {[ "r1" := open_rental ]} |}.

(** Book b1 of Ann, rented and returned by Bob. *)
Definition store_returned : Store :=
  {| users := users_ex; books := {[ "b1" := book_ex ]};
     rentals := {[ "r1" := returned open_rental 20 ]} |}.

Definition request_ex : CreateBody :=
  {| body_title := Some (JString "HtDP");
     body_author := Some (JString "Felleisen");
     body_isbn := None; body_description := None;
     body_coverImage := Some (JString "htdp.png") |}.

(** ** Further vocabulary *)

(** Every rental refers to a book of the store. *)
Definition ref_integrity (s : Store) : Prop :=
  ∀ rid r, rentals s !! rid = Some r → is_Some (books s !! bookId r).


(** The raw [session?.user?.id]. *)
Definition session_id (session : option Session) : option string :=
  (session ≫= s_user) ≫= su_id.

(** ** The book card ([BookCard]) and the detail page ([BookDetailPage]) *)

(** [session?.user?.id === book.owner.id]. *)
Definition isOwner (session : option Session) (b : BookWithStatus) : bool :=
  bool_decide (session_id session = Some (u_id (owner (book b)))).

(** [book.currentRental?.user.id === session?.user?.id]: both sides are
    [undefined], hence equal, when there is neither a current rental nor a
    session user id. *)
Definition isRentedByMe (session : option Session) (b : BookWithStatus)
    : bool :=
  bool_decide ((λ r, u_id (user r)) <$> currentRental b = session_id session).

(** The action button of the footer, with its [disabled] attribute. *)
Inductive FooterButton :=
  | RentButton (disabled : bool)     (* confirms into [handleRent] *)
  | ReturnButton (disabled : bool)   (* [onClick={handleReturn}] *)
  | RentedButton.                    (* the disabled "Rented" button *)

(** [book.isAvailable ? <Rent/> : isRentedByMe ? <Return/> : <Rented/>]. *)
Definition card_button (session : option Session) (loading : bool)
    (b : BookWithStatus) : FooterButton :=
  if isAvailable b then RentButton (loading || bool_decide (session = None))
  else if isRentedByMe session b then ReturnButton loading
  else RentedButton.

(** [isOwner && <Delete/>]: the delete button and its [disabled]
    attribute. *)
Definition card_delete_button (session : option Session) (loading : bool)
    (b : BookWithStatus) : option bool :=
  if isOwner session b then Some loading else None.

(** The detail page renders the same buttons, except that a book rented by
    somebody else gets no action button at all. *)
Definition detail_button (session : option Session) (actionLoading : bool)
    (b : BookWithStatus) : option FooterButton :=
  if isAvailable b
  then Some (RentButton (actionLoading || bool_decide (session = None)))
  else if isRentedByMe session b then Some (ReturnButton actionLoading)
  else None.

(** ** The home page: [HomePage.fetchBooks] *)

(** The [URLSearchParams] built from the selected filter. *)
Definition fetchBooks_params (filter : string) : gmap string string :=
  let params := ∅ in
  let params :=
    if decide (filter = "available") then <["available" := "true"]> params
    else params in
  let params :=
    if decide (filter = "rented") then <["available" := "false"]> params
    else params in
  params.

(** The list handed to [setBooks], if any. *)
Definition fetchBooks (filter : string) (s : Store)
    : option (list BookWithStatus) :=
  let response := (books_GET (fetchBooks_params filter !! "available") s).1 in
  if decide (200 ≤ status response < 300) then
    match body response with
    | BooksBody data => Some data
    | _ => None
    end
  else None.

(** ** The add-book dialog ([AddBookDialog]) *)

(** The values of the form; [isbn] and [description] are optional. *)
Record BookForm := mkBookForm {
  form_title : string;
  form_author : string;
  form_isbn : option string;
  form_description : option string
}.

(** [formSchema]: [title] and [author] are [z.string().min(1)]. *)
Definition formSchema (data : BookForm) : bool :=
  (1 <=? String.length (form_title data))%nat
  && (1 <=? String.length (form_author data))%nat.

(** [onSubmit]: no request without a cover image, otherwise the body
    [{ ...data, coverImage }] of the POST. *)
Definition onSubmit (coverImage : option string) (data : BookForm)
    : option CreateBody :=
  if negb (truthy coverImage) then None
  else Some {| body_title := Some (JString (form_title data));
               body_author := Some (JString (form_author data));
               body_isbn := JString <$> form_isbn data;
               body_description := JString <$> form_description data;
               body_coverImage := JString <$> coverImage |}.

(** [form.handleSubmit(onSubmit)]: [onSubmit] runs on values that pass the
    schema only. *)
Definition handleSubmit (coverImage : option string) (data : BookForm)
    : option CreateBody :=
  if formSchema data then onSubmit coverImage data else None.

(** ** The My Books page: what is rendered for an entry *)

(** [!rental.returnedAt && rental.book]: the Return button of an entry of
    the rentals tab; [fetchData] attaches the book to every entry. *)
Definition rental_return_button (x : ClientRental) : bool :=
  bool_decide (returnedAt (r_row x.1) = None).

(** The rentals of one book of the list response that belong to [me]. *)
Definition mine (me : string) (b : BookWithStatus) : list ClientRental :=
  (λ r, (r, b)) <$> filter (λ r, u_id (user r) = me) (b_rentals (book b)).

(** ** Sorting lemmas *)

Section Sorting.
Context {A : Type} (key : A → Z).

Lemma insert_desc_Permutation (x : A) (l : list A) :
  insert_desc key x l ≡ₚ x :: l.
Proof.
  induction l as [|y l IH]; simpl; [done|].
  destruct (key x <? key y); [|done].
  rewrite IH. apply Permutation_swap.
Qed.

Lemma sort_desc_Permutation (l : list A) : sort_desc key l ≡ₚ l.
Proof.
  induction l as [|x l IH]; simpl; [done|].
  rewrite insert_desc_Permutation. by rewrite IH.
Qed.

Lemma elem_of_sort_desc (x : A) (l : list A) : x ∈ sort_desc key l ↔ x ∈ l.
Proof. by rewrite sort_desc_Permutation. Qed.

Lemma insert_desc_sorted (x : A) (l : list A) :
  sorted_desc key l → sorted_desc key (insert_desc key x l).
Proof.
  unfold sorted_desc. induction 1 as [|y l Hl IH Hhd]; simpl.
  - by repeat constructor.
  - destruct (Z.ltb_spec (key x) (key y)) as [Hlt|Hge].
    + constructor; [done|].
      destruct l as [|z l]; simpl in *.
      * constructor. lia.
      * destruct (key x <? key z); constructor; [|lia].
        by inversion Hhd.
    + constructor; [by constructor|]. by constructor.
Qed.

Lemma sort_desc_sorted (l : list A) : sorted_desc key (sort_desc key l).
Proof.
  induction l as [|x l IH]; simpl; [constructor|].
  by apply insert_desc_sorted.
Qed.
End Sorting.

(** ** Lemmas on the store queries *)

Lemma elem_of_active_rentals (s : Store) (id : string) (x : string * RentalRow) :
  x ∈ filter (active_of_book id) (map_to_list (rentals s)) ↔ active s id x.1 x.2.
Proof.
  rewrite list_elem_of_filter, elem_of_map_to_list'.
  unfold active, active_of_book. tauto.
Qed.

Lemma active_rentals_nil (s : Store) (id : string) :
  filter (active_of_book id) (map_to_list (rentals s)) = [] ↔ no_active s id.
Proof.
  split.
  - intros Hnil rid r Hact.
    apply (elem_of_active_rentals s id (rid, r)) in Hact.
    rewrite Hnil in Hact. by apply not_elem_of_nil in Hact.
  - intros Hno.
    destruct (filter _ _) as [|[rid r] l] eqn:Heq; [done|].
    exfalso. apply (Hno rid r).
    apply (elem_of_active_rentals s id (rid, r)).
    rewrite Heq. apply elem_of_cons; by left.
Qed.

Lemma active_rentals_head (s : Store) (id : string) :
  match head (filter (active_of_book id) (map_to_list (rentals s))) with
  | Some x => active s id x.1 x.2
  | None => no_active s id
  end.
Proof.
  destruct (filter _ _) as [|x l] eqn:Heq; simpl.
  - by apply active_rentals_nil.
  - apply elem_of_active_rentals. rewrite Heq. apply elem_of_cons; by left.
Qed.

Lemma active_inj (s : Store) (id rid : string) (r r' : RentalRow) :
  active s id rid r → active s id rid r' → r = r'.
Proof. intros [H1 _] [H2 _]. congruence. Qed.

Lemma unique_active_head (s : Store) (id rid : string) (r : RentalRow) :
  unique_active s id rid r →
  head (filter (active_of_book id) (map_to_list (rentals s))) = Some (rid, r).
Proof.
  intros [Hact Huniq].
  pose proof (active_rentals_head s id) as Hhd.
  destruct (head _) as [[rid' r']|]; simpl in Hhd.
  - pose proof (Huniq _ _ Hhd) as ->.
    by rewrite (active_inj _ _ _ _ _ Hhd Hact).
  - by destruct (Hhd rid r).
Qed.

(** Where no book has two open rentals, the open rental of a book that
    [findFirst] selects is the same in every enumeration order of the
    table. *)
Lemma findFirst_any_order (s : Store) (id : string)
    (l : list (string * RentalRow)) :
  single_active s →
  l ≡ₚ map_to_list (rentals s) →
  head (filter (active_of_book id) l)
  = head (filter (active_of_book id) (map_to_list (rentals s))).
Proof.
  intros Hinv Hperm.
  assert (filter (active_of_book id) l
          ≡ₚ filter (active_of_book id) (map_to_list (rentals s))) as Hf
    by by rewrite Hperm.
  assert (NoDup (filter (active_of_book id) (map_to_list (rentals s)))) as Hnd
    by apply NoDup_filter, NoDup_map_to_list.
  destruct (filter (active_of_book id) (map_to_list (rentals s)))
    as [|x [|y t]] eqn:Heq.
  - by apply Permutation_nil_r in Hf as ->.
  - by apply Permutation_singleton_r in Hf as ->.
  - exfalso.
    assert (active s id x.1 x.2) as Hx.
    { apply elem_of_active_rentals. rewrite Heq. apply elem_of_cons; by left. }
    assert (active s id y.1 y.2) as Hy.
    { apply elem_of_active_rentals. rewrite Heq.
      apply elem_of_cons; right. apply elem_of_cons; by left. }
    pose proof (Hinv _ _ _ _ _ Hx Hy) as Hid.
    destruct x as [rx x], y as [ry y]; simpl in *. subst ry.
    pose proof (active_inj _ _ _ _ _ Hx Hy) as ->.
    apply NoDup_cons in Hnd as [Hnot _]. apply Hnot.
    apply elem_of_cons; by left.
Qed.

Lemma session_user_id_signed_in (uid : string) :
  uid ≠ "" → session_user_id (signed_in uid) = Some uid.
Proof.
  intros Hne. unfold session_user_id, signed_in; simpl.
  destruct (String.eqb_spec uid ""); [done|]. done.
Qed.

Lemma session_user_id_nonempty (session : option Session) (uid : string) :
  session_user_id session = Some uid → uid ≠ "".
Proof.
  unfold session_user_id.
  destruct ((session ≫= s_user) ≫= su_id) as [x|]; simpl; [|done].
  destruct (String.eqb_spec x ""); simpl; [done|]. congruence.
Qed.

(** Unfolding of a handler down to the store operations. *)
Ltac unfold_handler :=
  unfold books_GET, books_POST, books_my_GET, book_GET, book_DELETE,
    rent_POST, rent_DELETE, rentals_my_GET, try_catch, bind, ret, get_store,
    book_findUnique, book_findMany, rental_findMany, rental_findFirst,
    book_create, rental_create, rental_update_returnedAt, rental_deleteMany,
    book_delete; simpl.

Lemma unique_active_intro (s : Store) (id rid : string) (r : RentalRow) :
  filter (active_of_book id) (map_to_list (rentals s)) = [(rid, r)] →
  unique_active s id rid r.
Proof.
  intros Heq. split.
  - apply (elem_of_active_rentals s id (rid, r)). rewrite Heq.
    apply elem_of_cons; by left.
  - intros rid' r' Hact.
    apply (elem_of_active_rentals s id (rid', r')) in Hact.
    rewrite Heq in Hact. apply list_elem_of_singleton in Hact. congruence.
Qed.

(** ** Rent *)

Lemma rent_POST_not_found s session uid id newId now :
  session_user_id session = Some uid →
  books s !! id = None →
  rent_POST session id newId now s = (BookNotFound, s).
Proof. intros Hs Hb. unfold_handler. by rewrite Hs, Hb. Qed.

Lemma rent_POST_conflict s session uid id newId now row rid r :
  session_user_id session = Some uid →
  books s !! id = Some row →
  active s id rid r →
  rent_POST session id newId now s = (AlreadyRented, s).
Proof.
  intros Hs Hb Hact. unfold_handler. rewrite Hs, Hb; simpl.
  apply (elem_of_active_rentals s id (rid, r)) in Hact.
  destruct (filter _ _) as [|x l]; [by apply not_elem_of_nil in Hact|].
  destruct (decide _) as [_|Hn]; [done|]. simpl in Hn; lia.
Qed.

Lemma rent_POST_created s session uid id newId now row :
  session_user_id session = Some uid →
  books s !! id = Some row →
  no_active s id →
  rentals s !! newId = None →
  is_Some (users s !! uid) →
  let new := {| bookId := id; userId := uid;
                rentedAt := now; returnedAt := None |} in
  let s' := {| users := users s; books := books s;
               rentals := <[newId := new]> (rentals s) |} in
  rent_POST session id newId now s
  = (json_status (RentalBody (include_book s' (newId, new))) 201, s').
Proof.
  intros Hs Hb Hno Hfresh [u Hu]. unfold_handler. rewrite Hs, Hb; simpl.
  apply active_rentals_nil in Hno. rewrite Hno.
  destruct (decide _) as [Hn|_]; [simpl in Hn; lia|].
  by rewrite Hu, Hb, Hfresh.
Qed.

Lemma rent_POST_no_user s session uid id newId now row :
  session_user_id session = Some uid →
  books s !! id = Some row →
  no_active s id →
  users s !! uid = None →
  rent_POST session id newId now s = (Internal "Failed to rent book", s).
Proof.
  intros Hs Hb Hno Hu. unfold_handler. rewrite Hs, Hb; simpl.
  apply active_rentals_nil in Hno. rewrite Hno.
  destruct (decide _) as [Hn|_]; [simpl in Hn; lia|]. by rewrite Hu.
Qed.

(** C2, as the code has it. Rent by an authenticated caller: on a book that
    does not exist it fails with NotFound; on a book that has a rental with
    a null returnedAt it fails with Conflict ("Book is already rented")
    whoever the caller is, the owner and the current renter included, and
    the store is unchanged. Otherwise, when the acting user has a row in
    the user table (the generated identifier being new), it answers 201 and
    the rental table grows by exactly one row, open, for the book and the
    acting user, every other row being as before; when the session id has
    no row in the user table, the store refuses the rental, the answer is
    500 and nothing is created. *)
Theorem rent_outcomes (s : Store) (session : option Session) (uid id newId : string)
    (now : Z) :
  session_user_id session = Some uid →
  let out := rent_POST session id newId now s in
  (books s !! id = None → out = (BookNotFound, s))
  ∧ (∀ row rid r, books s !! id = Some row → active s id rid r →
       out = (AlreadyRented, s))
  ∧ (∀ row, books s !! id = Some row → no_active s id →
       rentals s !! newId = None →
       is_Some (users s !! uid) →
       status out.1 = 201
       ∧ rentals out.2
         = <[newId := {| bookId := id; userId := uid;
                         rentedAt := now; returnedAt := None |}]> (rentals s)
       ∧ size (rentals out.2) = S (size (rentals s))
       ∧ (∀ rid, rid ≠ newId → rentals out.2 !! rid = rentals s !! rid)
       ∧ active out.2 id newId {| bookId := id; userId := uid;
                                   rentedAt := now; returnedAt := None |}
       ∧ books out.2 = books s ∧ users out.2 = users s)
  ∧ (∀ row, books s !! id = Some row → no_active s id →
       users s !! uid = None →
       out = (Internal "Failed to rent book", s)).
Proof.
  intros Hs out. subst out. split_and!.
  - intros Hb. by eapply rent_POST_not_found.
  - intros row rid r Hb Hact. by eapply rent_POST_conflict.
  - intros row Hb Hno Hfresh Huser.
    rewrite (rent_POST_created s session uid id newId now row) by done.
    simpl. split_and!; try done.
    + by apply map_size_insert_None.
    + intros rid Hne. by rewrite lookup_insert_ne.
    + unfold active; simpl. by rewrite lookup_insert_eq.
  - intros row Hb Hno Hu. by eapply rent_POST_no_user.
Qed.

(** C2, the claim as written fails for a signed-in caller that has no row in
    the user table: the book is there and free, yet no rental is created and
    the answer is 500. *)
Lemma rent_without_user_row :
  session_user_id (signed_in "u9") = Some "u9"
  ∧ books store_available !! "b1" = Some book_ex
  ∧ no_active store_available "b1"
  ∧ rent_POST (signed_in "u9") "b1" "r1" 10 store_available
    = (Internal "Failed to rent book", store_available)
  ∧ ¬ (status (rent_POST (signed_in "u9") "b1" "r1" 10 store_available).1 = 201
       ∧ size (rentals (rent_POST (signed_in "u9") "b1" "r1" 10
                          store_available).2)
         = S (size (rentals store_available))).
Proof.
  split_and!.
  - vm_compute; reflexivity.
  - vm_compute; reflexivity.
  - apply active_rentals_nil. vm_compute; reflexivity.
  - vm_compute; reflexivity.
  - intros [Hstatus _]. vm_compute in Hstatus. discriminate.
Qed.

Lemma no_active_intro (s : Store) (id : string) :
  filter (active_of_book id) (map_to_list (rentals s)) = [] → no_active s id.
Proof. apply active_rentals_nil. Qed.

(** The owner Ann tries to rent her own book while Bob holds it; Bob rents
    it when it is free; nobody can rent a book that is not there. *)
Lemma rent_outcomes_witness :
  rent_POST (signed_in "u1") "b1" "r2" 30 store_rented
  = (AlreadyRented, store_rented)
  ∧ rent_POST (signed_in "u2") "b9" "r2" 30 store_rented
    = (BookNotFound, store_rented)
  ∧ rentals (rent_POST (signed_in "u2") "b1" "r1" 10 store_available).2
    = <["r1" := open_rental]> ∅.
Proof.
  split_and!.
  - refine (proj1 (proj2 (rent_outcomes store_rented (signed_in "u1") "u1"
                            "b1" "r2" 30 _)) book_ex "r1" open_rental _ _).
    + vm_compute; reflexivity.
    + vm_compute; reflexivity.
    + unfold active; split_and!; vm_compute; reflexivity.
  - refine (proj1 (rent_outcomes store_rented (signed_in "u2") "u2"
                     "b9" "r2" 30 _) _).
    + vm_compute; reflexivity.
    + vm_compute; reflexivity.
  - refine (proj1 (proj2 (proj1 (proj2 (proj2 (rent_outcomes store_available
              (signed_in "u2") "u2" "b1" "r1" 10 _))) book_ex _ _ _ _))).
    + vm_compute; reflexivity.
    + vm_compute; reflexivity.
    + apply no_active_intro. vm_compute; reflexivity.
    + vm_compute; reflexivity.
    + vm_compute. by eexists.
Defined.

(** ** Return *)

Lemma rent_DELETE_not_found s session uid id now :
  session_user_id session = Some uid →
  no_active s id →
  rent_DELETE session id now s = (NoActiveRental, s).
Proof.
  intros Hs Hno. unfold_handler. rewrite Hs; simpl.
  apply active_rentals_nil in Hno. by rewrite Hno.
Qed.

Lemma rent_DELETE_forbidden s session uid id now rid r :
  session_user_id session = Some uid →
  unique_active s id rid r →
  userId r ≠ uid →
  rent_DELETE session id now s = (OnlyRenterCanReturn, s).
Proof.
  intros Hs Hu Hne. unfold_handler. rewrite Hs; simpl.
  rewrite (unique_active_head _ _ _ _ Hu); simpl.
  by destruct (decide _).
Qed.

Lemma rent_DELETE_returned s session id now rid r :
  session_user_id session = Some (userId r) →
  unique_active s id rid r →
  let s' := {| users := users s; books := books s;
               rentals := <[rid := returned r now]> (rentals s) |} in
  rent_DELETE session id now s
  = (json (RentalBody (include_book s' (rid, returned r now))), s').
Proof.
  intros Hs Hu. unfold_handler. rewrite Hs; simpl.
  rewrite (unique_active_head _ _ _ _ Hu); simpl.
  destruct (decide _) as [Hne|_]; [done|].
  destruct Hu as [[Hl _] _]. by rewrite Hl.
Qed.

(** C3. Return by an authenticated caller: with no rental of the book having
    a null returnedAt it fails with NotFound; when the renter of the active
    rental is not the acting user it fails with Forbidden; in both cases the
    store is unchanged. Otherwise it answers 200 and the rental table is the
    former one with returnedAt set to the current time on the active rental:
    that row keeps its book, renter and rent time, and every other row is
    untouched. *)
Theorem return_outcomes (s : Store) (session : option Session) (uid id : string)
    (now : Z) :
  session_user_id session = Some uid →
  let out := rent_DELETE session id now s in
  (no_active s id → out = (NoActiveRental, s))
  ∧ (∀ rid r, unique_active s id rid r → userId r ≠ uid →
       out = (OnlyRenterCanReturn, s))
  ∧ (∀ rid r, unique_active s id rid r → userId r = uid →
       status out.1 = 200
       ∧ rentals out.2 = <[rid := returned r now]> (rentals s)
       ∧ rentals out.2 !! rid
         = Some {| bookId := id; userId := uid;
                   rentedAt := rentedAt r; returnedAt := Some now |}
       ∧ (∀ rid', rid' ≠ rid → rentals out.2 !! rid' = rentals s !! rid')
       ∧ books out.2 = books s ∧ users out.2 = users s).
Proof.
  intros Hs out. subst out. split; [|split].
  - intros Hno. by eapply rent_DELETE_not_found.
  - intros rid r Hu Hne. by eapply rent_DELETE_forbidden.
  - intros rid r Hu Heq. subst uid.
    rewrite (rent_DELETE_returned s session id now rid r) by done.
    simpl. split_and!; try done.
    + rewrite lookup_insert_eq. destruct Hu as [(_ & Hb & _) _].
      unfold returned. by rewrite Hb.
    + intros rid' Hne. by rewrite lookup_insert_ne.
Qed.

(** The owner Ann may not return the book Bob holds; Bob may. *)
Lemma return_outcomes_witness :
  rent_DELETE (signed_in "u1") "b1" 20 store_rented
  = (OnlyRenterCanReturn, store_rented)
  ∧ rentals (rent_DELETE (signed_in "u2") "b1" 20 store_rented).2
    = <["r1" := returned open_rental 20]> {[ "r1" := open_rental ]}
  ∧ rent_DELETE (signed_in "u2") "b1" 20 store_available
    = (NoActiveRental, store_available).
Proof.
  split_and!.
  - refine (proj1 (proj2 (return_outcomes store_rented (signed_in "u1") "u1"
                            "b1" 20 _)) "r1" open_rental _ _).
    + vm_compute; reflexivity.
    + apply unique_active_intro. vm_compute; reflexivity.
    + vm_compute. discriminate.
  - refine (proj1 (proj2 (proj2 (proj2 (return_outcomes store_rented
              (signed_in "u2") "u2" "b1" 20 _)) "r1" open_rental _ _))).
    + vm_compute; reflexivity.
    + apply unique_active_intro. vm_compute; reflexivity.
    + vm_compute; reflexivity.
  - refine (proj1 (return_outcomes store_available (signed_in "u2") "u2"
                     "b1" 20 _) _).
    + vm_compute; reflexivity.
    + apply no_active_intro. vm_compute; reflexivity.
Defined.

(** ** Delete *)

Lemma lookup_rentals_not_of_book (m : gmap string RentalRow) (id rid : string)
    (r : RentalRow) :
  filter (λ x, ¬ of_book id x) m !! rid = Some r
  ↔ m !! rid = Some r ∧ bookId r ≠ id.
Proof. rewrite map_lookup_filter_Some. unfold of_book; simpl. tauto. Qed.

Lemma book_DELETE_not_found s session uid id :
  session_user_id session = Some uid →
  books s !! id = None →
  book_DELETE session id s = (BookNotFound, s).
Proof. intros Hs Hb. unfold_handler. by rewrite Hs, Hb. Qed.

Lemma book_DELETE_forbidden s session uid id row :
  session_user_id session = Some uid →
  books s !! id = Some row →
  ownerId row ≠ uid →
  book_DELETE session id s = (OnlyOwnerCanDelete, s).
Proof.
  intros Hs Hb Hne. unfold_handler. rewrite Hs, Hb; simpl.
  by destruct (decide _).
Qed.

Lemma no_rentals_after_deleteMany (m : gmap string RentalRow) (id : string) :
  filter (of_book id) (map_to_list (filter (λ x, ¬ of_book id x) m)) = [].
Proof.
  apply elem_of_nil_inv. intros [rid r] Hin.
  apply list_elem_of_filter in Hin as [Hof Hin].
  apply elem_of_map_to_list, lookup_rentals_not_of_book in Hin as [_ Hne].
  by apply Hne.
Qed.

(** The store refuses to delete a book that a rental refers to. *)
Lemma book_delete_refused (s : Store) (id rid : string) (row : BookRow)
    (r : RentalRow) :
  books s !! id = Some row →
  rentals s !! rid = Some r → bookId r = id →
  book_delete id s = (s, inl ForeignKeyConstraintFailed).
Proof.
  intros Hb Hr Hof. unfold book_delete. rewrite Hb.
  assert ((rid, r) ∈ filter (of_book id) (map_to_list (rentals s))) as Hin.
  { apply list_elem_of_filter. split; [done|]. by apply elem_of_map_to_list. }
  destruct (filter _ _); [by apply not_elem_of_nil in Hin|done].
Qed.

Lemma book_DELETE_success s session id row :
  session_user_id session = Some (ownerId row) →
  books s !! id = Some row →
  book_DELETE session id s
  = (json (SuccessBody true),
     {| users := users s; books := delete id (books s);
        rentals := filter (λ x, ¬ of_book id x) (rentals s) |}).
Proof.
  intros Hs Hb. unfold_handler. rewrite Hs, Hb; simpl.
  destruct (decide _) as [Hne|_]; [done|]. simpl.
  by rewrite Hb, no_rentals_after_deleteMany.
Qed.

(** C4. Delete by an authenticated caller: on an absent book it fails with
    NotFound, and when the caller is not the owner it fails with Forbidden,
    the store being unchanged in both cases. For the owner it succeeds in
    two store operations, in this order: the first removes every rental that
    refers to the book and leaves the book and all other rentals in place,
    the second removes the book from that intermediate store. The order is
    needed: as long as a rental refers to the book, the store refuses to
    delete the book and leaves everything as it is. In the final store the
    book is gone, no rental refers to it, and the rentals of other books are
    exactly those of before. *)
Theorem delete_outcomes (s : Store) (session : option Session) (uid id : string) :
  session_user_id session = Some uid →
  let out := book_DELETE session id s in
  (books s !! id = None → out = (BookNotFound, s))
  ∧ (∀ row, books s !! id = Some row → ownerId row ≠ uid →
       out = (OnlyOwnerCanDelete, s))
  ∧ (∀ row, books s !! id = Some row → ownerId row = uid →
       out.1 = json (SuccessBody true)
       ∧ (∃ mid, rental_deleteMany id s = (mid, inr tt)
            ∧ books mid !! id = Some row
            ∧ (∀ rid r, rentals mid !! rid = Some r → bookId r ≠ id)
            ∧ book_delete id mid = (out.2, inr tt))
       ∧ books out.2 = delete id (books s)
       ∧ (∀ rid r, rentals out.2 !! rid = Some r → bookId r ≠ id)
       ∧ (∀ rid r, bookId r ≠ id →
            rentals out.2 !! rid = Some r ↔ rentals s !! rid = Some r)
       ∧ users out.2 = users s
       ∧ (∀ rid r, rentals s !! rid = Some r → bookId r = id →
            book_delete id s = (s, inl ForeignKeyConstraintFailed))).
Proof.
  intros Hs out. subst out. split; [|split].
  - intros Hb. by eapply book_DELETE_not_found.
  - intros row Hb Hne. by eapply book_DELETE_forbidden.
  - intros row Hb Heq. subst uid.
    rewrite (book_DELETE_success s session id row) by done.
    simpl. split_and!; try done.
    + eexists. split; [reflexivity|]. simpl. split_and!; [done| |].
      * intros rid r Hr. by apply lookup_rentals_not_of_book in Hr as [_ ?].
      * unfold book_delete; simpl.
        by rewrite Hb, no_rentals_after_deleteMany.
    + intros rid r Hr. by apply lookup_rentals_not_of_book in Hr as [_ ?].
    + intros rid r Hne. rewrite lookup_rentals_not_of_book. tauto.
    + intros rid r Hr Hof. by eapply book_delete_refused.
Qed.

(** Bob may not delete Ann's book; Ann may, also after it has a history,
    which the store would not let her do with the book first. *)
Lemma delete_outcomes_witness :
  book_DELETE (signed_in "u2") "b1" store_returned
  = (OnlyOwnerCanDelete, store_returned)
  ∧ book_DELETE (signed_in "u1") "b9" store_returned
    = (BookNotFound, store_returned)
  ∧ books (book_DELETE (signed_in "u1") "b1" store_returned).2
    = delete "b1" {[ "b1" := book_ex ]}
  ∧ book_delete "b1" store_returned
    = (store_returned, inl ForeignKeyConstraintFailed).
Proof.
  split_and!; cycle 3.
  - refine (proj2 (proj2 (proj2 (proj2 (proj2 (proj2 (proj2 (proj2
              (delete_outcomes store_returned (signed_in "u1") "u1" "b1" _))
              book_ex _ _)))))) "r1" (returned open_rental 20) _ _).
    + vm_compute; reflexivity.
    + vm_compute; reflexivity.
    + vm_compute; reflexivity.
    + vm_compute; reflexivity.
    + vm_compute; reflexivity.
  - refine (proj1 (proj2 (delete_outcomes store_returned (signed_in "u2") "u2"
                            "b1" _)) book_ex _ _).
    + vm_compute; reflexivity.
    + vm_compute; reflexivity.
    + vm_compute. discriminate.
  - refine (proj1 (delete_outcomes store_returned (signed_in "u1") "u1"
                     "b9" _) _).
    + vm_compute; reflexivity.
    + vm_compute; reflexivity.
  - refine (proj1 (proj2 (proj2 (proj2 (proj2 (delete_outcomes store_returned
              (signed_in "u1") "u1" "b1" _)) book_ex _ _)))).
    + vm_compute; reflexivity.
    + vm_compute; reflexivity.
    + vm_compute; reflexivity.
Defined.

(** C9. Delete by the owner does not look at availability: when the book has
    an open rental, held by whichever user, the owner's Delete succeeds, and
    afterwards neither the book nor that rental is in the store, so the
    rental has ended without a return by its renter. *)
Theorem owner_delete_ends_open_rental (s : Store) (session : option Session)
    (id rid : string) (row : BookRow) (r : RentalRow) :
  session_user_id session = Some (ownerId row) →
  books s !! id = Some row →
  active s id rid r →
  let out := book_DELETE session id s in
  out.1 = json (SuccessBody true)
  ∧ books out.2 !! id = None
  ∧ rentals out.2 !! rid = None
  ∧ no_active out.2 id.
Proof.
  intros Hs Hb (Hr & Hbook & Hopen) out. subst out.
  rewrite (book_DELETE_success s session id row) by done.
  simpl. split_and!; [done| | |].
  - by rewrite lookup_delete_eq.
  - destruct (filter _ _ !! rid) as [r'|] eqn:Hl; [|done].
    apply lookup_rentals_not_of_book in Hl as [Hl Hne]. congruence.
  - intros rid' r' (Hl & Hb' & _); simpl in Hl.
    by apply lookup_rentals_not_of_book in Hl as [_ ?].
Qed.

(** Ann deletes her book while Bob, not the owner, holds it. *)
Lemma owner_delete_ends_open_rental_witness :
  userId open_rental ≠ ownerId book_ex
  ∧ (book_DELETE (signed_in "u1") "b1" store_rented).1
    = json (SuccessBody true)
  ∧ books (book_DELETE (signed_in "u1") "b1" store_rented).2 !! "b1" = None
  ∧ rentals (book_DELETE (signed_in "u1") "b1" store_rented).2 !! "r1" = None
  ∧ no_active (book_DELETE (signed_in "u1") "b1" store_rented).2 "b1".
Proof.
  split; [vm_compute; discriminate|].
  refine (owner_delete_ends_open_rental store_rented (signed_in "u1") "b1" "r1"
            book_ex open_rental _ _ _).
  - vm_compute; reflexivity.
  - vm_compute; reflexivity.
  - unfold active; split_and!; vm_compute; reflexivity.
Defined.

(** ** Create *)

Lemma truthy_Some (v : option string) :
  truthy v = true ↔ ∃ x, v = Some x ∧ x ≠ "".
Proof.
  destruct v as [x|]; simpl.
  - destruct (String.eqb_spec x ""); simpl; split.
    + done.
    + intros (y & [= <-] & Hy). done.
    + eauto.
    + done.
  - split; [done|]. by intros (? & ? & _).
Qed.


Lemma books_POST_bad_request s session uid request newId now :
  session_user_id session = Some uid →
  truthy_json (body_title request) = false
  ∨ truthy_json (body_author request) = false
  ∨ truthy_json (body_coverImage request) = false →
  books_POST session request newId now s = (FieldsRequired, s).
Proof.
  intros Hs Hmiss. unfold_handler. rewrite Hs; simpl.
  destruct Hmiss as [-> | [-> | ->]]; simpl;
    repeat (destruct (truthy_json _); simpl); done.
Qed.

Lemma truthy_json_string (x : string) :
  x ≠ "" → truthy_json (Some (JString x)) = true.
Proof. intros Hx. simpl. by destruct (String.eqb_spec x ""). Qed.

Lemma books_POST_created s session uid request newId now t a c i d :
  session_user_id session = Some uid →
  body_title request = Some (JString t) → t ≠ "" →
  body_author request = Some (JString a) → a ≠ "" →
  body_coverImage request = Some (JString c) → c ≠ "" →
  optional_string (body_isbn request) = Some i →
  optional_string (body_description request) = Some d →
  is_Some (users s !! uid) →
  books s !! newId = None →
  let new := {| title := t; author := a; isbn := i; description := d;
                coverImage := Some c; ownerId := uid; createdAt := now |} in
  let s' := {| users := users s; books := <[newId := new]> (books s);
               rentals := rentals s |} in
  books_POST session request newId now s
  = (json_status (CreatedBookBody (include_owner s' (newId, new))) 201, s').
Proof.
  intros Hs Ht Ht' Ha Ha' Hc Hc' Hi Hd [u Hu] Hfresh.
  unfold_handler. rewrite Hs; simpl. rewrite Ht, Ha, Hc.
  rewrite !truthy_json_string by done. simpl.
  by rewrite Hi, Hd, Hu, Hfresh.
Qed.





(** C10. Create treats the empty string as an absent value: for an
    authenticated caller, a request whose title, author or coverImage is the
    empty string fails with BadRequest, whatever its other members, and the
    store (hence the book table) is unchanged. *)
Theorem create_rejects_empty_string (s : Store) (session : option Session)
    (uid : string) (request : CreateBody) (newId : string) (now : Z) :
  session_user_id session = Some uid →
  body_title request = Some (JString "")
  ∨ body_author request = Some (JString "")
  ∨ body_coverImage request = Some (JString "") →
  books_POST session request newId now s = (FieldsRequired, s)
  ∧ books (books_POST session request newId now s).2 = books s.
Proof.
  intros Hs Hempty.
  assert (books_POST session request newId now s = (FieldsRequired, s)) as ->.
  { eapply books_POST_bad_request; [done|].
    destruct Hempty as [-> | [-> | ->]]; auto. }
  done.
Qed.

(** A request with every member present and an empty cover image. *)
Lemma create_rejects_empty_string_witness :
  books_POST (signed_in "u2")
    {| body_title := Some (JString "HtDP");
       body_author := Some (JString "Felleisen");
       body_isbn := Some (JString "978-0262062183");
       body_description := Some (JString "text");
       body_coverImage := Some (JString "") |} "b2" 7 store_available
  = (FieldsRequired, store_available)
  ∧ books (books_POST (signed_in "u2")
      {| body_title := Some (JString "HtDP");
         body_author := Some (JString "Felleisen");
         body_isbn := Some (JString "978-0262062183");
         body_description := Some (JString "text");
         body_coverImage := Some (JString "") |} "b2" 7 store_available).2
    = books store_available.
Proof.
  refine (create_rejects_empty_string store_available (signed_in "u2") "u2"
            _ "b2" 7 _ _).
  - vm_compute; reflexivity.
  - right; right. reflexivity.
Defined.

(** ** List and Get *)

Lemma derived_fields_from_list (s : Store) (v : BookWithStatus)
    (l : list RentalWithUser) :
  (∀ x, x ∈ l ↔ ∃ rid r, active s (b_id (book v)) rid r
                          ∧ x = include_user s (rid, r)) →
  (isAvailable v = true ↔ l = []) →
  currentRental v = head l →
  derived_fields_ok s v.
Proof.
  intros Hl Hav Hcur.
  assert (l = [] ↔ no_active s (b_id (book v))) as Hnil.
  { split.
    - intros -> rid r Hact.
      assert (include_user s (rid, r) ∈ []) as Hin by (apply Hl; eauto).
      by apply not_elem_of_nil in Hin.
    - intros Hno. apply elem_of_nil_inv. intros x Hx.
      apply Hl in Hx as (rid & r & Hact & _). by apply (Hno rid r). }
  assert (∀ x, currentRental v = Some x →
            active s (b_id (book v)) (r_id x) (r_row x)
            ∧ x = include_user s (r_id x, r_row x)) as Hsome.
  { intros x Hx. rewrite Hcur in Hx. apply head_Some_elem_of in Hx.
    apply Hl in Hx as (rid & r & Hact & ->). done. }
  unfold derived_fields_ok; simpl. split_and!.
  - by rewrite Hav.
  - rewrite Hcur, head_None. done.
  - done.
  - intros rid r [Hact Huniq].
    destruct (currentRental v) as [x|] eqn:Hx.
    + destruct (Hsome x eq_refl) as [Hact' ->]; simpl in *.
      pose proof (Huniq _ _ Hact') as Hrid.
      rewrite Hrid in *. by rewrite (active_inj _ _ _ _ _ Hact' Hact).
    + symmetry in Hcur. apply head_None, Hnil in Hcur.
      by destruct (Hcur rid r).
Qed.

Lemma book_view_derived (s : Store) (id : string) (row : BookRow) :
  derived_fields_ok s (book_view s (id, row)).
Proof.
  apply (derived_fields_from_list s _
           (b_rentals (include_owner_active_rentals s (id, row)))).
  - intros x; simpl. rewrite list_elem_of_fmap. split.
    + intros ([rid r] & -> & Hin). apply elem_of_active_rentals in Hin. eauto.
    + intros (rid & r & Hact & ->). exists (rid, r). split; [done|].
      by apply elem_of_active_rentals.
  - simpl. rewrite bool_decide_eq_true. split.
    + apply nil_length_inv.
    + by intros ->.
  - done.
Qed.

Lemma books_GET_listed (available : option string) (s : Store) :
  books_GET available s = (json (BooksBody (listed available s)), s).
Proof. reflexivity. Qed.

Lemma no_rentals_iff (s : Store) (b : string * BookRow) :
  length (b_rentals (include_owner_active_rentals s b)) = 0%nat
  ↔ no_active s b.1.
Proof.
  simpl. rewrite length_fmap, <- active_rentals_nil. split.
  - apply nil_length_inv.
  - by intros ->.
Qed.

Lemma elem_of_all_rows (s : Store) (b : string * BookRow) :
  b ∈ sort_desc (λ b, createdAt b.2) (filter all_books (map_to_list (books s)))
  ↔ books s !! b.1 = Some b.2.
Proof.
  rewrite elem_of_sort_desc, list_elem_of_filter, elem_of_map_to_list'.
  unfold all_books. tauto.
Qed.

Lemma some_rentals_iff (s : Store) (b : string * BookRow) :
  (0 < length (b_rentals (include_owner_active_rentals s b)))%nat
  ↔ ∃ rid r, active s b.1 rid r.
Proof.
  simpl. rewrite length_fmap. split.
  - destruct (filter _ _) as [|[rid r] l] eqn:Heq; simpl; [lia|]. intros _.
    exists rid, r. apply (elem_of_active_rentals s b.1 (rid, r)).
    rewrite Heq. apply elem_of_cons; by left.
  - intros (rid & r & Hact).
    apply (elem_of_active_rentals s b.1 (rid, r)) in Hact.
    destruct (filter _ _); simpl; [|lia]. by apply not_elem_of_nil in Hact.
Qed.

(** Membership in the list response, by the value of the filter. *)
Lemma elem_of_listed (available : option string) (s : Store)
    (v : BookWithStatus) :
  v ∈ listed available s ↔
  ∃ id row, books s !! id = Some row ∧ v = book_view s (id, row)
    ∧ (available = Some "true" → no_active s id)
    ∧ (available = Some "false" → ∃ rid r, active s id rid r).
Proof.
  assert (∀ (P : BookWithRentals → Prop) `{∀ b, Decision (P b)},
    v ∈ with_status <$> filter P (include_owner_active_rentals s <$>
          sort_desc (λ b, createdAt b.2)
            (filter all_books (map_to_list (books s))))
    ↔ ∃ id row, books s !! id = Some row ∧ v = book_view s (id, row)
        ∧ P (include_owner_active_rentals s (id, row))) as Hfiltered.
  { intros P HP. rewrite list_elem_of_fmap. split.
    - intros (b & -> & Hin). apply list_elem_of_filter in Hin as [HPb Hin].
      apply list_elem_of_fmap in Hin as ([id row] & -> & Hin).
      apply elem_of_all_rows in Hin. eauto.
    - intros (id & row & Hb & -> & HPb).
      eexists. split; [reflexivity|]. apply list_elem_of_filter. split; [done|].
      apply list_elem_of_fmap. exists (id, row). split; [done|].
      by apply elem_of_all_rows. }
  unfold listed; simpl.
  destruct (decide (available = Some "true")) as [->|Hnt].
  - rewrite Hfiltered. split.
    + intros (id & row & Hb & Hv & HP). exists id, row.
      apply (no_rentals_iff s (id, row)) in HP. split_and!; done.
    + intros (id & row & Hb & Hv & Ht & _). exists id, row.
      split_and!; try done. apply (no_rentals_iff s (id, row)). auto.
  - destruct (decide (available = Some "false")) as [->|Hnf].
    + rewrite Hfiltered. split.
      * intros (id & row & Hb & Hv & HP). exists id, row.
        apply (some_rentals_iff s (id, row)) in HP. split_and!; done.
      * intros (id & row & Hb & Hv & _ & Hf). exists id, row.
        split_and!; try done. apply (some_rentals_iff s (id, row)). auto.
    + rewrite list_elem_of_fmap. split.
      * intros (b & -> & Hin).
        apply list_elem_of_fmap in Hin as ([id row] & -> & Hin).
        apply elem_of_all_rows in Hin. exists id, row. split_and!; done.
      * intros (id & row & Hb & -> & _).
        eexists. split; [reflexivity|].
        apply list_elem_of_fmap. exists (id, row). split; [done|].
        by apply elem_of_all_rows.
Qed.

Lemma listed_derived (available : option string) (s : Store) :
  Forall (derived_fields_ok s) (listed available s).
Proof.
  apply Forall_forall. intros v Hv.
  apply elem_of_listed in Hv as (id & row & _ & -> & _).
  apply book_view_derived.
Qed.

Lemma listed_NoDup (available : option string) (s : Store) :
  NoDup ((λ v, b_id (book v)) <$> listed available s).
Proof.
  assert (NoDup (include_owner_active_rentals s <$>
            sort_desc (λ b, createdAt b.2)
              (filter all_books (map_to_list (books s))))) as Hrows.
  { apply NoDup_fmap_2_strong.
    - intros [i1 r1] [i2 r2] _ _ Heq. by injection Heq as -> ->.
    - rewrite sort_desc_Permutation. apply NoDup_filter, NoDup_map_to_list. }
  assert (∀ l : list BookWithRentals, NoDup l → NoDup (with_status <$> l))
    as Hstatus.
  { intros l Hl. apply NoDup_fmap_2_strong; [|done].
    intros x y _ _ Heq. by injection Heq. }
  apply NoDup_fmap_2_strong.
  - intros v1 v2 Hv1 Hv2 Heq.
    apply elem_of_listed in Hv1 as (id1 & row1 & Hb1 & -> & _).
    apply elem_of_listed in Hv2 as (id2 & row2 & Hb2 & -> & _).
    simpl in Heq. subst id2. congruence.
  - unfold listed; simpl.
    destruct (decide (available = Some "true")).
    + by apply Hstatus, NoDup_filter.
    + destruct (decide (available = Some "false")).
      * by apply Hstatus, NoDup_filter.
      * by apply Hstatus.
Qed.

(** The response of Get for a book that exists. *)
Lemma book_GET_found (s : Store) (id : string) (row : BookRow) :
  books s !! id = Some row →
  ∃ v, book_GET id s = (json (BookBody v), s)
       ∧ b_id (book v) = id ∧ b_row (book v) = row
       ∧ derived_fields_ok s v.
Proof.
  intros Hb. unfold_handler. rewrite Hb; simpl.
  eexists. split; [reflexivity|]. split; [done|]. split; [done|].
  eapply derived_fields_from_list; cycle 2.
  - simpl. reflexivity.
  - simpl. intros x. rewrite list_elem_of_filter, list_elem_of_fmap. split.
    + intros (Hopen & [rid r] & -> & Hin).
      apply elem_of_sort_desc, list_elem_of_filter in Hin as [Hof Hin].
      apply elem_of_map_to_list' in Hin. exists rid, r. by split.
    + intros (rid & r & (Hr & Hof & Hopen) & ->). split; [done|].
      exists (rid, r). split; [done|].
      apply elem_of_sort_desc, list_elem_of_filter. split; [done|].
      by apply elem_of_map_to_list'.
  - simpl. rewrite bool_decide_eq_true. apply head_None.
Qed.

(** C1. Every book serialized by List (whatever the filter) and by Get
    carries derived fields that agree with the rental table: isAvailable is
    true exactly when no rental of the book has a null returnedAt;
    currentRental is null exactly in that case; a non-null currentRental is
    an open rental of the book, joined with its user; and when the book has
    one open rental, currentRental is that rental. *)
Theorem derived_availability (s : Store) :
  (∀ available,
     books_GET available s = (json (BooksBody (listed available s)), s)
     ∧ Forall (derived_fields_ok s) (listed available s))
  ∧ (∀ id row, books s !! id = Some row →
       ∃ v, book_GET id s = (json (BookBody v), s)
            ∧ b_id (book v) = id
            ∧ derived_fields_ok s v).
Proof.
  split.
  - intros available. split; [apply books_GET_listed|apply listed_derived].
  - intros id row Hb.
    destruct (book_GET_found s id row Hb) as (v & Hv & Hid & _ & Hok). eauto.
Qed.

(** Get on the rented book b1. *)
Lemma derived_availability_witness :
  ∃ v, book_GET "b1" store_rented = (json (BookBody v), store_rented)
       ∧ b_id (book v) = "b1"
       ∧ derived_fields_ok store_rented v.
Proof.
  refine (proj2 (derived_availability store_rented) "b1" book_ex _).
  vm_compute; reflexivity.
Defined.

(** C8. List with available=true returns exactly the books with no rental
    having a null returnedAt; with available=false exactly the books with at
    least one such rental; with no filter (or any other value) all books.
    Each book of the table appears at most once, serialized with its owner,
    its open rentals and the derived isAvailable and currentRental. *)
Theorem list_filters (s : Store) :
  (∀ v, v ∈ listed (Some "true") s ↔
        ∃ id row, books s !! id = Some row ∧ no_active s id
                  ∧ v = book_view s (id, row))
  ∧ (∀ v, v ∈ listed (Some "false") s ↔
          ∃ id row, books s !! id = Some row ∧ (∃ rid r, active s id rid r)
                    ∧ v = book_view s (id, row))
  ∧ (∀ available v, available ≠ Some "true" → available ≠ Some "false" →
       v ∈ listed available s ↔
       ∃ id row, books s !! id = Some row ∧ v = book_view s (id, row))
  ∧ (∀ available,
       books_GET available s = (json (BooksBody (listed available s)), s)
       ∧ NoDup ((λ v, b_id (book v)) <$> listed available s)
       ∧ Forall (λ v, isAvailable v = bool_decide (b_rentals (book v) = [])
                      ∧ currentRental v = head (b_rentals (book v))
                      ∧ derived_fields_ok s v) (listed available s)).
Proof.
  split_and!.
  - intros v. rewrite elem_of_listed. split.
    + intros (id & row & Hb & Hv & Ht & _). exists id, row. auto.
    + intros (id & row & Hb & Hno & Hv). exists id, row.
      split_and!; first [done | by intros [=]].
  - intros v. rewrite elem_of_listed. split.
    + intros (id & row & Hb & Hv & _ & Hf). exists id, row. auto.
    + intros (id & row & Hb & Hsome & Hv). exists id, row.
      split_and!; first [done | by intros [=]].
  - intros available v Hnt Hnf. rewrite elem_of_listed. split.
    + intros (id & row & Hb & Hv & _). exists id, row. auto.
    + intros (id & row & Hb & Hv). exists id, row. split_and!; done.
  - intros available. split_and!.
    + apply books_GET_listed.
    + apply listed_NoDup.
    + apply Forall_forall. intros v Hv.
      apply elem_of_listed in Hv as (id & row & _ & -> & _). split_and!.
      * simpl. destruct (filter _ _); done.
      * done.
      * apply book_view_derived.
Qed.

(** With no filter the rented book b1 is listed, as not available. *)
Lemma list_filters_witness :
  book_view store_rented ("b1", book_ex) ∈ listed None store_rented
  ∧ isAvailable (book_view store_rented ("b1", book_ex)) = false.
Proof.
  split; [|vm_compute; reflexivity].
  refine (proj2 (proj1 (proj2 (proj2 (list_filters store_rented))) None _ _ _) _).
  - discriminate.
  - discriminate.
  - exists "b1", book_ex. split; [vm_compute|]; reflexivity.
Defined.

(** ** The writes of the store *)

(** Unfolding of a handler down to its writing store operations. *)
Ltac unfold_route :=
  unfold books_GET, books_POST, books_my_GET, book_GET, book_DELETE,
    rent_POST, rent_DELETE, rentals_my_GET, try_catch, bind, ret, get_store,
    book_findUnique, book_findMany, rental_findMany, rental_findFirst,
    rental_update_returnedAt, rental_deleteMany; simpl.

(** A create either throws and writes nothing, or inserts one row under a
    new identifier, with its references in place. *)
Lemma book_create_cases (newId : string) (data : BookCreateInput) (now : Z)
    (s : Store) :
  (∃ e, book_create newId data now s = (s, inl e))
  ∨ (∃ b, books s !! newId = None
          ∧ ownerId b = data_ownerId data
          ∧ is_Some (users s !! ownerId b)
          ∧ book_create newId data now s
            = ({| users := users s; books := <[newId := b]> (books s);
                  rentals := rentals s |}, inr (newId, b))).
Proof.
  unfold book_create.
  destruct (required_string (data_title data)); [|left; by eexists].
  destruct (required_string (data_author data)); [|left; by eexists].
  destruct (optional_string (data_isbn data)); [|left; by eexists].
  destruct (optional_string (data_description data)); [|left; by eexists].
  destruct (required_string (data_coverImage data)); [|left; by eexists].
  destruct (users s !! data_ownerId data) eqn:Hu; [|left; by eexists].
  destruct (books s !! newId) eqn:Hb; [left; by eexists|].
  right. eexists. split; [done|]. split; [|split; [|reflexivity]].
  - reflexivity.
  - simpl. by rewrite Hu.
Qed.

Lemma rental_create_cases (newId : string) (r : RentalRow) (s : Store) :
  (∃ e, rental_create newId r s = (s, inl e))
  ∨ (rentals s !! newId = None
     ∧ is_Some (users s !! userId r)
     ∧ is_Some (books s !! bookId r)
     ∧ rental_create newId r s
       = ({| users := users s; books := books s;
             rentals := <[newId := r]> (rentals s) |}, inr (newId, r))).
Proof.
  unfold rental_create.
  destruct (users s !! userId r) eqn:Hu; [|left; by eexists].
  destruct (books s !! bookId r) eqn:Hb; [|left; by eexists].
  destruct (rentals s !! newId) eqn:Hr; [left; by eexists|].
  right. split_and!; [done|by eexists|by eexists|done].
Qed.

(** After the rentals of a book have been deleted, the book can be. *)
Lemma book_delete_after_deleteMany (s : Store) (id : string) (row : BookRow) :
  books s !! id = Some row →
  book_delete id {| users := users s; books := books s;
                    rentals := filter (λ x, ¬ of_book id x) (rentals s) |}
  = ({| users := users s; books := delete id (books s);
        rentals := filter (λ x, ¬ of_book id x) (rentals s) |}, inr tt).
Proof.
  intros Hb. unfold book_delete; simpl.
  by rewrite Hb, no_rentals_after_deleteMany.
Qed.

Ltac book_create_cases :=
  match goal with
  | |- context [book_create ?n ?d ?t ?s] =>
      destruct (book_create_cases n d t s)
        as [[e ->]|(b & Hfresh & Hown & Huser & ->)]
  end.

Ltac rental_create_cases :=
  match goal with
  | |- context [rental_create ?n ?r ?s] =>
      destruct (rental_create_cases n r s)
        as [[e ->]|(Hfresh & Huser & Hbook & ->)]
  end.

(** ** Returned rentals *)




(** ** The active-rental invariant *)

Lemma active_same_rentals (s s' : Store) (id rid : string) (r : RentalRow) :
  rentals s' = rentals s → active s' id rid r ↔ active s id rid r.
Proof. unfold active. by intros ->. Qed.

(** At most one open rental per book: kept by every operation. *)
Lemma step_single_active (s : Store) (op : Op) :
  single_active s → single_active (step s op).
Proof.
  intros Hinv. unfold step.
  assert (∀ s', rentals s' = rentals s → single_active s') as Hsame.
  { intros s' Heq id rid r rid' r' H1 H2.
    apply (active_same_rentals s s') in H1, H2; try done. by eapply Hinv. }
  destruct op as [available|session request newId now|session|id|session id
                 |session id newId now|session id now|session]; simpl.
  - done.
  - apply Hsame. unfold_route.
    destruct (session_user_id session) as [uid|]; simpl; [|done].
    destruct (negb _ || _ || _); simpl; [done|].
    book_create_cases; simpl; done.
  - apply Hsame. unfold_route. by destruct (session_user_id session).
  - apply Hsame. unfold_route. by destruct (books s !! id).
  - unfold_route.
    destruct (session_user_id session) as [uid|]; simpl; [|done].
    destruct (books s !! id) as [row|] eqn:Hb; simpl; [|done].
    destruct (decide (ownerId row ≠ uid)); simpl; [done|].
    rewrite (book_delete_after_deleteMany s id row Hb); simpl.
    intros id' rid r rid' r' (H1 & ? & ?) (H2 & ? & ?); simpl in *.
    apply lookup_rentals_not_of_book in H1 as [H1 _].
    apply lookup_rentals_not_of_book in H2 as [H2 _].
    by apply (Hinv id' rid r rid' r').
  - unfold_route.
    destruct (session_user_id session) as [uid|]; simpl; [|done].
    destruct (books s !! id); simpl; [|done].
    destruct (decide _) as [|Hlen]; simpl; [done|].
    rental_create_cases; simpl; [done|].
    assert (no_active s id) as Hno.
    { apply active_rentals_nil. apply nil_length_inv. lia. }
    intros id' rid r rid' r' (H1 & Hb1 & Ho1) (H2 & Hb2 & Ho2); simpl in *.
    destruct (decide (rid = newId)) as [->|Hn1];
      destruct (decide (rid' = newId)) as [->|Hn2]; [done| | |].
    + rewrite lookup_insert_eq in H1. rewrite lookup_insert_ne in H2 by done.
      injection H1 as <-; simpl in *. subst id'.
      by destruct (Hno rid' r').
    + rewrite lookup_insert_eq in H2. rewrite lookup_insert_ne in H1 by done.
      injection H2 as <-; simpl in *. subst id'.
      by destruct (Hno rid r).
    + rewrite lookup_insert_ne in H1, H2 by done.
      by apply (Hinv id' rid r rid' r').
  - unfold_route.
    destruct (session_user_id session) as [uid|]; simpl; [|done].
    destruct (head _) as [[rid0 row]|]; simpl; [|done].
    destruct (decide (userId row ≠ uid)); simpl; [done|].
    destruct (rentals s !! rid0) as [row0|] eqn:Hl; simpl; [|done].
    intros id' rid r rid' r' (H1 & Hb1 & Ho1) (H2 & Hb2 & Ho2); simpl in *.
    destruct (decide (rid = rid0)) as [->|Hn1].
    { rewrite lookup_insert_eq in H1. injection H1 as <-. done. }
    destruct (decide (rid' = rid0)) as [->|Hn2].
    { rewrite lookup_insert_eq in H2. injection H2 as <-. done. }
    rewrite lookup_insert_ne in H1, H2 by done.
    by apply (Hinv id' rid r rid' r').
  - apply Hsame. unfold_route. by destruct (session_user_id session).
Qed.

Lemma run_single_active (ops : list Op) (s : Store) :
  single_active s → single_active (run ops s).
Proof.
  revert s. unfold run. induction ops as [|op ops IH]; intros s Hinv; simpl.
  - done.
  - by apply IH, step_single_active.
Qed.

(** A store that starts without rentals satisfies the invariant for ever. *)
Lemma reachable_single_active (ops : list Op) (s : Store) :
  rentals s = ∅ → single_active (run ops s).
Proof.
  intros Hempty. apply run_single_active.
  intros id rid r rid' r' [Hr _] _. rewrite Hempty in Hr. done.
Qed.

(** Under the invariant an open rental of a book is its only one. *)
Lemma single_active_unique (s : Store) (id rid : string) (r : RentalRow) :
  single_active s → active s id rid r → unique_active s id rid r.
Proof. intros Hinv Hact. split; [done|]. intros rid' r' H'. by eapply Hinv. Qed.

(** ** My rentals *)

(** Where the entries collected from one book come from. *)
Lemma elem_of_collect_book (me : string) (acc : list ClientRental)
    (b : BookWithStatus) (x : ClientRental) :
  x ∈ collect_book me acc b →
  x ∈ acc
  ∨ (x.2 = b ∧ u_id (user x.1) = me
     ∧ (x.1 ∈ b_rentals (book b) ∨ currentRental b = Some x.1)).
Proof.
  unfold collect_book.
  assert (∀ l acc,
    x ∈ foldl (λ acc rental,
                 if decide (u_id (user rental) = me)
                 then (acc ++ [(rental, b)])%list else acc) acc l →
    x ∈ acc ∨ (x.2 = b ∧ u_id (user x.1) = me ∧ x.1 ∈ l)) as Hloop.
  { induction l as [|r l IH]; intros acc0 Hx; simpl in *; [by left|].
    apply IH in Hx as [Hx|(? & ? & ?)].
    - destruct (decide _) as [Hme|]; [|by left].
      apply elem_of_app in Hx as [Hx|Hx]; [by left|].
      apply list_elem_of_singleton in Hx as ->. right. simpl.
      split_and!; try done. apply elem_of_cons; by left.
    - right. split_and!; try done. apply elem_of_cons; by right. }
  intros Hx.
  destruct (currentRental b) as [cur|] eqn:Hcur.
  - destruct (decide _) as [Hme|].
    + destruct (existsb _ _).
      * apply Hloop in Hx. tauto.
      * apply elem_of_app in Hx as [Hx|Hx].
        -- apply Hloop in Hx. tauto.
        -- apply list_elem_of_singleton in Hx as ->. right. simpl. auto.
    + apply Hloop in Hx. tauto.
  - apply Hloop in Hx. tauto.
Qed.

Lemma elem_of_my_rentals (me : string) (allBooks : list BookWithStatus)
    (x : ClientRental) :
  x ∈ my_rentals me allBooks →
  x.2 ∈ allBooks ∧ u_id (user x.1) = me
  ∧ (x.1 ∈ b_rentals (book x.2) ∨ currentRental x.2 = Some x.1).
Proof.
  unfold my_rentals. rewrite elem_of_sort_desc.
  assert (∀ l acc, x ∈ foldl (collect_book me) acc l →
            x ∈ acc ∨ (x.2 ∈ l ∧ u_id (user x.1) = me
                       ∧ (x.1 ∈ b_rentals (book x.2)
                          ∨ currentRental x.2 = Some x.1))) as Hloop.
  { induction l as [|b l IH]; intros acc Hx; simpl in *; [by left|].
    apply IH in Hx as [Hx|(? & ? & ?)].
    - apply elem_of_collect_book in Hx as [Hx|(Hb & ? & ?)]; [by left|].
      right. rewrite Hb. split_and!; try done. apply elem_of_cons; by left.
    - right. split_and!; try done. apply elem_of_cons; by right. }
  intros Hx. apply Hloop in Hx as [Hx|Hx]; [|done].
  by apply not_elem_of_nil in Hx.
Qed.

(** What the page shows under "my rentals" holds open rentals only: the
    list response embeds no rental that has been returned. *)
Lemma my_rentals_all_open (session : option Session) (s : Store)
    (myBooks : list BookWithStatus) (myRentals : list ClientRental) :
  fetchData session s = Some (myBooks, myRentals) →
  Forall (λ x, returnedAt (r_row x.1) = None) myRentals.
Proof.
  unfold fetchData. destruct (session_user_id session) as [me|]; [|done].
  rewrite books_GET_listed; simpl. intros [= _ <-].
  apply Forall_forall. intros x Hx.
  apply elem_of_my_rentals in Hx as (Hb & _ & Hsrc).
  apply elem_of_listed in Hb as (id & row & _ & Hv & _).
  pose proof (book_view_derived s id row) as (_ & _ & Hcur & _).
  rewrite <- Hv in Hcur. destruct Hsrc as [Hin|Hin].
  - rewrite Hv in Hin; simpl in Hin.
    apply list_elem_of_fmap in Hin as ([rid r] & -> & Hin).
    by apply elem_of_active_rentals in Hin as (_ & _ & ?).
  - by apply Hcur in Hin as [(_ & _ & ?) _].
Qed.

(** The entries are ordered by rent time, newest first. *)
Lemma my_rentals_sorted (me : string) (allBooks : list BookWithStatus) :
  Sorted (λ x y : ClientRental, rentedAt (r_row y.1) ≤ rentedAt (r_row x.1))
    (my_rentals me allBooks).
Proof. apply (sort_desc_sorted (λ x : ClientRental, rentedAt (r_row x.1))). Qed.

(** C5, at the store where Bob has rented and returned book b1: the rental
    table holds Bob's returned rental r1, and GET /api/rentals/my hands it
    to Bob, but the "my rentals" list computed by the page from the list
    response is empty, so Bob's past rental is not in it. *)
Theorem my_rentals_omits_returned :
  rentals store_returned !! "r1"
  = Some {| bookId := "b1"; userId := "u2";
            rentedAt := 10; returnedAt := Some 20 |}
  ∧ fetchData (signed_in "u2") store_returned
    = Some ([], [])
  ∧ (∃ x, (rentals_my_GET (signed_in "u2") store_returned).1
          = json (RentalsBody [x])
          ∧ r_id (rbo_rental x) = "r1").
Proof.
  split_and!.
  - vm_compute; reflexivity.
  - vm_compute; reflexivity.
  - eexists. split; vm_compute; reflexivity.
Qed.

(** ** A lending scenario, run on the model *)

(** Ann creates a book, Bob rents it, Ann may not return it, Bob returns it
    and rents it again: availability follows, and the history has two
    rows. *)
Example lending_scenario :
  let s0 := {| users := users_ex; books := ∅; rentals := ∅ |} in
  let s1 := step s0 (Create (signed_in "u1") request_ex "b1" 5) in
  let s2 := step s1 (Rent (signed_in "u2") "b1" "r1" 10) in
  let s3 := step s2 (Return (signed_in "u2") "b1" 20) in
  let s4 := step s3 (Rent (signed_in "u2") "b1" "r2" 30) in
  isAvailable <$> listed None s1 = [true]
  ∧ isAvailable <$> listed None s2 = [false]
  ∧ (λ v, u_id ∘ user <$> currentRental v) <$> listed None s2 = [Some "u2"]
  ∧ rent_DELETE (signed_in "u1") "b1" 20 s2 = (OnlyRenterCanReturn, s2)
  ∧ isAvailable <$> listed None s3 = [true]
  ∧ returnedAt <$> rentals s3 !! "r1" = Some (Some 20)
  ∧ isAvailable <$> listed None s4 = [false]
  ∧ size (rentals s4) = 2%nat.
Proof. vm_compute. repeat split; reflexivity. Qed.

(** ** Authentication guard *)

Lemma session_user_id_None (session : option Session) :
  session_user_id session = None
  ↔ session_id session = None ∨ session_id session = Some "".
Proof.
  unfold session_user_id, session_id.
  destruct ((session ≫= s_user) ≫= su_id) as [x|]; simpl; [|tauto].
  destruct (String.eqb_spec x "") as [->|Hne]; simpl.
  - tauto.
  - split; [done|]. intros [[=]|[=]]. done.
Qed.

(** X1. Without a session user id, and also when that id is the empty
    string, every handler behind the authentication guard answers 401 and
    leaves the store as it is. *)
Theorem guarded_handlers_unauthorized (s : Store) (session : option Session) :
  session_id session = None ∨ session_id session = Some "" →
  (∀ request newId now,
     books_POST session request newId now s = (Unauthorized, s))
  ∧ books_my_GET session s = (Unauthorized, s)
  ∧ (∀ id, book_DELETE session id s = (Unauthorized, s))
  ∧ (∀ id newId now, rent_POST session id newId now s = (Unauthorized, s))
  ∧ (∀ id now, rent_DELETE session id now s = (Unauthorized, s))
  ∧ rentals_my_GET session s = (Unauthorized, s).
Proof.
  intros Hs. apply session_user_id_None in Hs.
  unfold books_POST, books_my_GET, book_DELETE, rent_POST, rent_DELETE,
    rentals_my_GET. rewrite Hs. done.
Qed.

(** A session object whose user has an empty id cannot delete Ann's book. *)
Lemma guarded_handlers_unauthorized_witness :
  book_DELETE (signed_in "") "b1" store_rented = (Unauthorized, store_rented).
Proof.
  refine (proj1 (proj2 (proj2 (guarded_handlers_unauthorized store_rented
                                 (signed_in "") _))) "b1").
  right. reflexivity.
Defined.

(** ** Failures do not write *)





(** ** Invariants of the store *)

Lemma single_active_no_rentals (s : Store) :
  rentals s = ∅ → single_active s.
Proof. intros Hempty id rid r rid' r' [Hr _] _. rewrite Hempty in Hr. done. Qed.

Lemma single_active_open_rentals (s : Store) (id : string) :
  single_active s →
  (length (filter (active_of_book id) (map_to_list (rentals s))) ≤ 1)%nat.
Proof.
  intros Hinv.
  assert (NoDup (filter (active_of_book id) (map_to_list (rentals s))))
    as Hnd by apply NoDup_filter, NoDup_map_to_list.
  pose proof (elem_of_active_rentals s id) as Hin.
  destruct (filter _ _) as [|[rid1 r1] [|[rid2 r2] l]]; simpl; [lia|lia|].
  exfalso.
  assert (active s id rid1 r1) as H1.
  { apply (Hin (rid1, r1)). apply elem_of_cons; by left. }
  assert (active s id rid2 r2) as H2.
  { apply (Hin (rid2, r2)). apply elem_of_cons; right.
    apply elem_of_cons; by left. }
  pose proof (Hinv _ _ _ _ _ H1 H2) as ->.
  rewrite (active_inj _ _ _ _ _ H1 H2) in Hnd.
  apply NoDup_cons in Hnd as [Hnotin _]. apply Hnotin.
  apply elem_of_cons; by left.
Qed.

(** X3. The active-rental invariant: if no book has two open rentals, then
    after any sequence of operations no book has two open rentals, and every
    book of a List response carries at most one rental. *)
Theorem active_rental_invariant (s : Store) (ops : list Op) :
  single_active s →
  single_active (run ops s)
  ∧ ∀ available, Forall (λ v, (length (b_rentals (book v)) ≤ 1)%nat)
                   (listed available (run ops s)).
Proof.
  intros Hinv. apply (run_single_active ops) in Hinv. split; [done|].
  intros available. apply Forall_forall. intros v Hv.
  apply elem_of_listed in Hv as (id & row & _ & -> & _); simpl.
  rewrite length_fmap. by apply single_active_open_rentals.
Qed.

(** Bob rents the free book, then Ann tries to rent it too. *)
Lemma active_rental_invariant_witness :
  single_active (run [Rent (signed_in "u2") "b1" "r1" 10;
                      Rent (signed_in "u1") "b1" "r2" 11] store_available).
Proof.
  refine (proj1 (active_rental_invariant store_available _ _)).
  apply single_active_no_rentals. reflexivity.
Defined.



Lemma ref_integrity_intro (s : Store) :
  Forall (λ x, is_Some (books s !! bookId x.2)) (map_to_list (rentals s)) →
  ref_integrity s.
Proof.
  intros Hall rid r Hr. rewrite Forall_forall in Hall.
  apply (Hall (rid, r)). by apply elem_of_map_to_list.
Qed.


(** ** How the operations compose *)

Lemma no_active_after_insert_returned (s : Store) (id rid : string)
    (r : RentalRow) (t : Z) (m : gmap string RentalRow) :
  rentals s = <[rid := returned r t]> m →
  (∀ rid' r', rid' ≠ rid → m !! rid' = Some r' → bookId r' = id →
              returnedAt r' ≠ None) →
  no_active s id.
Proof.
  intros Hs Hothers rid' r' (Hr & Hb & Hopen). rewrite Hs in Hr.
  destruct (decide (rid' = rid)) as [->|Hne].
  - rewrite lookup_insert_eq in Hr. by injection Hr as <-.
  - rewrite lookup_insert_ne in Hr by done. by eapply Hothers.
Qed.

(** X5. A Rent of a free book by a user [uid] of the store, under a new
    identifier, succeeds; after it every further Rent of the book, by
    anybody, is a Conflict; a Return by anybody else is Forbidden; and a
    Return by [uid] succeeds, after which the book has no open rental and
    the rental table is the one before the Rent plus the new rental,
    closed. *)
Theorem rent_then_return (s : Store) (session : option Session)
    (uid id newId : string) (now : Z) (row : BookRow) :
  session_user_id session = Some uid →
  books s !! id = Some row →
  no_active s id →
  rentals s !! newId = None →
  is_Some (users s !! uid) →
  let s1 := (rent_POST session id newId now s).2 in
  status (rent_POST session id newId now s).1 = 201
  ∧ (∀ session' uid' newId' now',
     session_user_id session' = Some uid' →
     rent_POST session' id newId' now' s1 = (AlreadyRented, s1))
  ∧ (∀ session' uid' now',
       session_user_id session' = Some uid' → uid' ≠ uid →
       rent_DELETE session' id now' s1 = (OnlyRenterCanReturn, s1))
  ∧ (∀ now',
       let out := rent_DELETE session id now' s1 in
       status out.1 = 200
       ∧ rentals out.2
         = <[newId := {| bookId := id; userId := uid; rentedAt := now;
                         returnedAt := Some now' |}]> (rentals s)
       ∧ books out.2 = books s
       ∧ no_active out.2 id).
Proof.
  intros Hs Hb Hno Hfresh Huser s1. subst s1.
  rewrite (rent_POST_created s session uid id newId now row) by done.
  simpl. set (new := {| bookId := id; userId := uid; rentedAt := now;
                        returnedAt := None |}).
  set (s1 := {| users := users s; books := books s;
                rentals := <[newId := new]> (rentals s) |}).
  assert (unique_active s1 id newId new) as Hu.
  { split.
    - unfold active; simpl. by rewrite lookup_insert_eq.
    - intros rid' r' (Hr & Hb' & Hopen); simpl in Hr.
      destruct (decide (rid' = newId)) as [|Hne]; [done|].
      rewrite lookup_insert_ne in Hr by done.
      by destruct (Hno rid' r'). }
  split_and!.
  - done.
  - intros session' uid' newId' now' Hs'.
    eapply rent_POST_conflict; [done|done|apply Hu].
  - intros session' uid' now' Hs' Hne.
    eapply rent_DELETE_forbidden; [done|done|done].
  - intros now'.
    rewrite (rent_DELETE_returned s1 session id now' newId new) by done.
    simpl. split_and!; [done| |done|].
    + by rewrite insert_insert_eq.
    + eapply (no_active_after_insert_returned _ id newId new now'
                (rentals s)); simpl.
      * by rewrite insert_insert_eq.
      * intros rid' r' _ Hr Hb' Hopen. by destruct (Hno rid' r').
Qed.

(** Bob rents the free book b1; Ann cannot return it, Bob can. *)
Lemma rent_then_return_witness :
  let s1 := (rent_POST (signed_in "u2") "b1" "r1" 10 store_available).2 in
  rent_DELETE (signed_in "u1") "b1" 20 s1 = (OnlyRenterCanReturn, s1).
Proof.
  refine (proj1 (proj2 (proj2 (rent_then_return store_available
            (signed_in "u2") "u2" "b1" "r1" 10 book_ex _ _ _ _ _)))
            (signed_in "u1") "u1" 20 _ _).
  - vm_compute; reflexivity.
  - vm_compute; reflexivity.
  - apply no_active_intro. vm_compute; reflexivity.
  - vm_compute; reflexivity.
  - vm_compute. by eexists.
  - vm_compute; reflexivity.
  - discriminate.
Defined.

(** X6. A Return cannot be repeated: after the renter has returned the one
    open rental of a book, the book has no open rental, a second Return by
    anybody answers NotFound and writes nothing, and the book can be rented
    again, by any user of the store, under a new rental identifier, which
    adds a row and keeps the closed one. *)
Theorem return_then_rent_again (s : Store) (session : option Session)
    (id rid : string) (r : RentalRow) (now : Z) (row : BookRow) :
  session_user_id session = Some (userId r) →
  unique_active s id rid r →
  books s !! id = Some row →
  let s1 := (rent_DELETE session id now s).2 in
  no_active s1 id
  ∧ (∀ session' uid' now',
       session_user_id session' = Some uid' →
       rent_DELETE session' id now' s1 = (NoActiveRental, s1))
  ∧ (∀ session' uid' newId' now',
       session_user_id session' = Some uid' →
       is_Some (users s !! uid') →
       rentals s !! newId' = None →
       let out := rent_POST session' id newId' now' s1 in
       status out.1 = 201
       ∧ size (rentals out.2) = S (size (rentals s))
       ∧ rentals out.2 !! rid = Some (returned r now)
       ∧ active out.2 id newId' {| bookId := id; userId := uid';
                                    rentedAt := now'; returnedAt := None |}).
Proof.
  intros Hs Hu Hb s1. subst s1.
  rewrite (rent_DELETE_returned s session id now rid r) by done.
  simpl. set (s1 := {| users := users s; books := books s;
                       rentals := <[rid := returned r now]> (rentals s) |}).
  assert (no_active s1 id) as Hno.
  { apply (no_active_after_insert_returned _ id rid r now (rentals s));
      [done|].
    intros rid' r' Hne Hr Hb' Hopen. destruct Hu as [_ Huniq].
    apply Hne, (Huniq rid' r'). by split. }
  destruct Hu as [(Hr & _ & _) _].
  split_and!; [done| |].
  - intros session' uid' now' Hs'. by eapply rent_DELETE_not_found.
  - intros session' uid' newId' now' Hs' Huser Hfresh.
    assert (newId' ≠ rid) as Hne by (intros ->; congruence).
    rewrite (rent_POST_created s1 session' uid' id newId' now' row);
      [|done|done|done|simpl; by rewrite lookup_insert_ne|done].
    simpl. split_and!; [done| | |].
    + rewrite map_size_insert_None by (by rewrite lookup_insert_ne).
      rewrite map_size_insert_Some by done. done.
    + rewrite lookup_insert_ne by done. by rewrite lookup_insert_eq.
    + unfold active; simpl. by rewrite lookup_insert_eq.
Qed.

(** Bob returns b1; a second return finds nothing to return. *)
Lemma return_then_rent_again_witness :
  let s1 := (rent_DELETE (signed_in "u2") "b1" 20 store_rented).2 in
  rent_DELETE (signed_in "u2") "b1" 21 s1 = (NoActiveRental, s1).
Proof.
  refine (proj1 (proj2 (return_then_rent_again store_rented (signed_in "u2")
            "b1" "r1" open_rental 20 book_ex _ _ _)) (signed_in "u2") "u2" 21 _).
  - vm_compute; reflexivity.
  - apply unique_active_intro. vm_compute; reflexivity.
  - vm_compute; reflexivity.
  - vm_compute; reflexivity.
Defined.

(** X7. After the owner has deleted a book, the book is gone for every
    operation: Get, a further Delete and Rent answer NotFound for the book,
    Return answers NotFound for want of an open rental, none of them writes,
    and no List response contains the book. *)
Theorem deleted_book_is_gone (s : Store) (session : option Session)
    (id : string) (row : BookRow) :
  session_user_id session = Some (ownerId row) →
  books s !! id = Some row →
  let s1 := (book_DELETE session id s).2 in
  book_GET id s1 = (BookNotFound, s1)
  ∧ (∀ session' uid', session_user_id session' = Some uid' →
       book_DELETE session' id s1 = (BookNotFound, s1))
  ∧ (∀ session' uid' newId now, session_user_id session' = Some uid' →
       rent_POST session' id newId now s1 = (BookNotFound, s1))
  ∧ (∀ session' uid' now, session_user_id session' = Some uid' →
       rent_DELETE session' id now s1 = (NoActiveRental, s1))
  ∧ (∀ available,
       Forall (λ v, b_id (book v) ≠ id) (listed available s1)).
Proof.
  intros Hs Hb s1. subst s1.
  rewrite (book_DELETE_success s session id row) by done. simpl.
  set (s1 := {| users := users s; books := delete id (books s);
                rentals := filter (λ x, ¬ of_book id x) (rentals s) |}).
  assert (books s1 !! id = None) as Hgone by apply lookup_delete_eq.
  split_and!.
  - unfold_handler. by rewrite lookup_delete_eq.
  - intros session' uid' Hs'. by eapply book_DELETE_not_found.
  - intros session' uid' newId now Hs'. by eapply rent_POST_not_found.
  - intros session' uid' now Hs'. eapply rent_DELETE_not_found; [done|].
    intros rid r (Hr & Hb' & _); simpl in Hr.
    by apply lookup_rentals_not_of_book in Hr as [_ ?].
  - intros available. apply Forall_forall. intros v Hv.
    apply elem_of_listed in Hv as (id' & row' & Hb' & -> & _); simpl.
    intros ->. congruence.
Qed.

(** Ann deletes b1 while Bob holds it; Bob can no longer return it. *)
Lemma deleted_book_is_gone_witness :
  let s1 := (book_DELETE (signed_in "u1") "b1" store_rented).2 in
  rent_DELETE (signed_in "u2") "b1" 20 s1 = (NoActiveRental, s1).
Proof.
  refine (proj1 (proj2 (proj2 (proj2 (deleted_book_is_gone store_rented
            (signed_in "u1") "b1" book_ex _ _)))) (signed_in "u2") "u2" 20 _).
  - vm_compute; reflexivity.
  - vm_compute; reflexivity.
  - vm_compute; reflexivity.
Defined.

Lemma no_rentals_of_absent_book (s : Store) (id : string) :
  ref_integrity s → books s !! id = None →
  filter (of_book id) (map_to_list (rentals s)) = [].
Proof.
  intros Hinv Hb. apply elem_of_nil_inv. intros [rid r] Hin.
  apply list_elem_of_filter in Hin as [Hof Hin].
  apply elem_of_map_to_list in Hin. apply Hinv in Hin as [row Hrow].
  unfold of_book in Hof; simpl in Hof. congruence.
Qed.

(** What a Create that answers 201 has done. *)
Lemma books_POST_201 (s : Store) (session : option Session)
    (request : CreateBody) (newId : string) (now : Z) :
  status (books_POST session request newId now s).1 = 201 →
  ∃ uid b,
    session_user_id session = Some uid
    ∧ books s !! newId = None
    ∧ ownerId b = uid
    ∧ is_Some (users s !! uid)
    ∧ (books_POST session request newId now s).2
      = {| users := users s; books := <[newId := b]> (books s);
           rentals := rentals s |}.
Proof.
  unfold_route. destruct (session_user_id session) as [uid|]; simpl; [|done].
  destruct (negb _ || _ || _); simpl; [done|].
  book_create_cases; simpl; [done|]. intros _.
  exists uid, b. simpl in Hown. rewrite Hown in Huser. done.
Qed.

(** X8. A book that has just been created (Create answered 201, in a store
    without orphan rentals) is served by Get with the caller as owner, an
    empty rental history, isAvailable true and no currentRental; it is in
    the List response under the available filter and not under the rented
    filter. *)
Theorem created_book_is_available (s : Store) (session : option Session)
    (uid : string) (request : CreateBody) (newId : string) (now : Z) :
  session_user_id session = Some uid →
  status (books_POST session request newId now s).1 = 201 →
  ref_integrity s →
  let s1 := (books_POST session request newId now s).2 in
  (∃ v, book_GET newId s1 = (json (BookBody v), s1)
        ∧ b_id (book v) = newId
        ∧ ownerId (b_row (book v)) = uid
        ∧ u_id (owner (book v)) = uid
        ∧ b_rentals (book v) = []
        ∧ isAvailable v = true
        ∧ currentRental v = None)
  ∧ newId ∈ (λ v, b_id (book v)) <$> listed (Some "true") s1
  ∧ newId ∉ (λ v, b_id (book v)) <$> listed (Some "false") s1.
Proof.
  intros Hs Hcreated Hinv s1. subst s1.
  destruct (books_POST_201 s session request newId now Hcreated)
    as (uid' & new & Hs' & Hfresh & Hown & _ & ->).
  assert (uid' = uid) as -> by congruence.
  set (s1 := {| users := users s; books := <[newId := new]> (books s);
                rentals := rentals s |}).
  assert (filter (of_book newId) (map_to_list (rentals s)) = []) as Hnone
    by by apply no_rentals_of_absent_book.
  assert (no_active s1 newId) as Hno.
  { intros rid r (Hr & Hb & _); simpl in Hr.
    apply Hinv in Hr as [row Hrow]. congruence. }
  assert (books s1 !! newId = Some new) as Hnew by apply lookup_insert_eq.
  split_and!.
  - unfold_handler. rewrite lookup_insert_eq; simpl. rewrite Hnone; simpl.
    eexists. split; [reflexivity|]. done.
  - apply list_elem_of_fmap. exists (book_view s1 (newId, new)).
    split; [done|]. apply elem_of_listed. exists newId, new.
    split_and!; first [done | by intros [=]].
  - intros Hin. apply list_elem_of_fmap in Hin as (v & Hid & Hv).
    apply elem_of_listed in Hv as (id' & row' & _ & -> & _ & Hsome).
    simpl in Hid. subst id'. destruct Hsome as (rid & r & Hact); [done|].
    by apply (Hno rid r).
Qed.

(** Bob adds a second book to the store where b1 is rented. *)
Lemma created_book_is_available_witness :
  "b2" ∈ (λ v, b_id (book v)) <$>
    listed (Some "true")
      (books_POST (signed_in "u2") request_ex "b2" 7 store_rented).2.
Proof.
  refine (proj1 (proj2 (created_book_is_available store_rented
            (signed_in "u2") "u2" request_ex "b2" 7 _ _ _))).
  - vm_compute; reflexivity.
  - vm_compute; reflexivity.
  - apply ref_integrity_intro. vm_compute. repeat constructor. eauto.
Defined.

(** ** The read endpoints *)

(** A query [f <$> sort (filter P table)]: its rows are the rows of the
    table that satisfy [P], each once. *)
Lemma query_rows {A B} (m : gmap string A) (P : string * A → Prop)
    `{∀ x, Decision (P x)} (key : string * A → Z) (f : string * A → B)
    (idf : B → string) :
  (∀ x, idf (f x) = x.1) →
  let l := f <$> sort_desc key (filter P (map_to_list m)) in
  (∀ y, y ∈ l ↔ ∃ i a, m !! i = Some a ∧ P (i, a) ∧ y = f (i, a))
  ∧ NoDup (idf <$> l).
Proof.
  intros Hid l. subst l. split.
  - intros y. rewrite list_elem_of_fmap. split.
    + intros ([i a] & -> & Hin).
      apply elem_of_sort_desc, list_elem_of_filter in Hin as [HP Hin].
      apply elem_of_map_to_list in Hin. eauto.
    + intros (i & a & Hl & HP & ->). exists (i, a). split; [done|].
      apply elem_of_sort_desc, list_elem_of_filter. split; [done|].
      by apply elem_of_map_to_list.
  - rewrite <- list_fmap_compose. apply NoDup_fmap_2_strong.
    + intros [i1 a1] [i2 a2] H1 H2 Heq; simpl in Heq. rewrite !Hid in Heq.
      simpl in Heq. subst i2.
      apply elem_of_sort_desc, list_elem_of_filter in H1 as [_ H1].
      apply elem_of_sort_desc, list_elem_of_filter in H2 as [_ H2].
      apply elem_of_map_to_list in H1, H2. congruence.
    + rewrite sort_desc_Permutation. apply NoDup_filter, NoDup_map_to_list.
Qed.

Lemma query_sorted {A B} (key : A → Z) (f : A → B) (key' : B → Z)
    (l : list A) :
  (∀ x, key' (f x) = key x) →
  sorted_desc key' (f <$> sort_desc key l).
Proof.
  intros Hkey. unfold sorted_desc.
  apply (Sorted_fmap f (λ x y, key y ≤ key x)).
  - intros x y. by rewrite !Hkey.
  - apply sort_desc_sorted.
Qed.

Lemma books_my_GET_rows (s : Store) (session : option Session)
    (uid : string) :
  session_user_id session = Some uid →
  ∃ l, books_my_GET session s = (json (OwnedBooksBody l), s)
    ∧ (∀ b, b ∈ l ↔ ∃ id row, books s !! id = Some row ∧ ownerId row = uid
                               ∧ b = include_owner_active_rentals s (id, row))
    ∧ NoDup (b_id <$> l)
    ∧ sorted_desc (λ b, createdAt (b_row b)) l.
Proof.
  intros Hs. unfold_handler. rewrite Hs; simpl.
  eexists. split; [reflexivity|].
  destruct (query_rows (books s) (owned_by uid) (λ b, createdAt b.2)
              (include_owner_active_rentals s) b_id) as [Hin Hnd]; [done|].
  split_and!; [apply Hin|apply Hnd|by apply query_sorted].
Qed.

(** X9. GET /api/books/my for a signed-in caller answers 200 with exactly
    the books whose owner is the caller, each once, newest first, each with
    its open rentals only; the store is not changed. *)
Theorem owned_books_endpoint (s : Store) (session : option Session)
    (uid : string) :
  session_user_id session = Some uid →
  ∃ l, books_my_GET session s = (json (OwnedBooksBody l), s)
    ∧ (∀ b, b ∈ l ↔ ∃ id row, books s !! id = Some row ∧ ownerId row = uid
                               ∧ b = include_owner_active_rentals s (id, row))
    ∧ NoDup (b_id <$> l)
    ∧ sorted_desc (λ b, createdAt (b_row b)) l
    ∧ Forall (λ b, Forall (λ x, bookId (r_row x) = b_id b
                                ∧ returnedAt (r_row x) = None)
                     (b_rentals b)) l.
Proof.
  intros Hs.
  destruct (books_my_GET_rows s session uid Hs)
    as (l & Hl & Hin & Hnd & Hsorted).
  exists l. split_and!; [done|done|done|done|].
  apply Forall_forall. intros b Hb.
  apply Hin in Hb as (id & row & _ & _ & ->); simpl.
  apply Forall_fmap, Forall_forall. intros [rid r] Hr; simpl.
  by apply elem_of_active_rentals in Hr as (_ & ? & ?).
Qed.

(** Ann's own books in the store where b1 is rented. *)
Lemma owned_books_endpoint_witness :
  ∃ l, books_my_GET (signed_in "u1") store_rented
       = (json (OwnedBooksBody l), store_rented)
       ∧ NoDup (b_id <$> l).
Proof.
  destruct (owned_books_endpoint store_rented (signed_in "u1") "u1")
    as (l & Heq & _ & Hnd & _).
  - vm_compute; reflexivity.
  - exists l. split; assumption.
Defined.

(** X10. GET /api/rentals/my for a signed-in caller answers 200 with exactly
    the rentals whose renter is the caller, returned ones included, each
    once, newest first; when no rental is an orphan every entry comes with
    its book; the store is not changed. *)
Theorem my_rentals_endpoint (s : Store) (session : option Session)
    (uid : string) :
  session_user_id session = Some uid →
  ∃ l, rentals_my_GET session s = (json (RentalsBody l), s)
    ∧ (∀ x, x ∈ l ↔ ∃ rid r, rentals s !! rid = Some r ∧ userId r = uid
                              ∧ x = include_book_owner s (rid, r))
    ∧ NoDup ((λ x, r_id (rbo_rental x)) <$> l)
    ∧ sorted_desc (λ x, rentedAt (r_row (rbo_rental x))) l
    ∧ (ref_integrity s → Forall (λ x, is_Some (rbo_book x)) l).
Proof.
  intros Hs. unfold_handler. rewrite Hs; simpl.
  eexists. split; [reflexivity|].
  destruct (query_rows (rentals s) (of_user uid) (λ r, rentedAt r.2)
              (include_book_owner s) (λ x, r_id (rbo_rental x)))
    as [Hin Hnd]; [done|].
  split_and!.
  - apply Hin.
  - apply Hnd.
  - by apply query_sorted.
  - intros Hinv. apply Forall_forall. intros x Hx.
    apply Hin in Hx as (rid & r & Hr & _ & ->); simpl.
    apply Hinv in Hr as [row ->]. by eexists.
Qed.

(** Bob's rentals in the store where he has returned b1. *)
Lemma my_rentals_endpoint_witness :
  ∃ l, rentals_my_GET (signed_in "u2") store_returned
       = (json (RentalsBody l), store_returned)
       ∧ ∀ x, x ∈ l ↔ ∃ rid r, rentals store_returned !! rid = Some r
                                ∧ userId r = "u2"
                                ∧ x = include_book_owner store_returned (rid, r).
Proof.
  destruct (my_rentals_endpoint store_returned (signed_in "u2") "u2")
    as (l & Heq & Hin & _).
  - vm_compute; reflexivity.
  - exists l. split; assumption.
Defined.

(** X11. Get answers NotFound for a book that is not in the store. For a
    book that is, the rentals of the response are the whole history of the
    book, returned rentals included, each once and newest first. *)
Theorem get_history (s : Store) (id : string) :
  (books s !! id = None → book_GET id s = (BookNotFound, s))
  ∧ (∀ row, books s !! id = Some row →
       ∃ v, book_GET id s = (json (BookBody v), s)
         ∧ b_id (book v) = id ∧ b_row (book v) = row
         ∧ (∀ x, x ∈ b_rentals (book v) ↔
                 ∃ rid r, rentals s !! rid = Some r ∧ bookId r = id
                          ∧ x = include_user s (rid, r))
         ∧ NoDup (r_id <$> b_rentals (book v))
         ∧ sorted_desc (λ x, rentedAt (r_row x)) (b_rentals (book v))).
Proof.
  split.
  - intros Hb. unfold_handler. by rewrite Hb.
  - intros row Hb. unfold_handler. rewrite Hb; simpl.
    eexists. split; [reflexivity|]. simpl.
    destruct (query_rows (rentals s) (of_book id) (λ r, rentedAt r.2)
                (include_user s) r_id) as [Hin Hnd]; [done|].
    split_and!; [done|done| | |].
    + apply Hin.
    + apply Hnd.
    + by apply query_sorted.
Qed.

(** The history of b1 after Bob has returned it, and a book that is not
    there. *)
Lemma get_history_witness :
  book_GET "b9" store_returned = (BookNotFound, store_returned)
  ∧ ∃ v, book_GET "b1" store_returned = (json (BookBody v), store_returned)
         ∧ NoDup (r_id <$> b_rentals (book v)).
Proof.
  split.
  - refine (proj1 (get_history store_returned "b9") _). vm_compute; reflexivity.
  - destruct (proj2 (get_history store_returned "b1") book_ex)
      as (v & Heq & _ & _ & _ & Hnd & _).
    + vm_compute; reflexivity.
    + exists v. split; assumption.
Defined.

Lemma filter_fmap_list {A B} (f : A → B) (P : B → Prop)
    `{∀ y, Decision (P y)} (l : list A) :
  filter P (f <$> l) = f <$> filter (P ∘ f) l.
Proof.
  induction l as [|x l IH]; [done|]. csimpl.
  rewrite !filter_cons; simpl. destruct (decide (P (f x))); csimpl; by rewrite IH.
Qed.

(** X12. The availability filter of List is the filter on the derived flag:
    the response for available=true is the unfiltered response restricted to
    the books with isAvailable true, in the same order, the response for
    available=false is its restriction to the books with isAvailable false,
    the two together hold every book of the unfiltered response, any other
    value of the parameter is ignored, and the unfiltered response is
    ordered by creation time, newest first. *)
Theorem list_filter_by_flag (s : Store) :
  listed (Some "true") s = filter (λ v, isAvailable v = true) (listed None s)
  ∧ listed (Some "false") s
    = filter (λ v, isAvailable v = false) (listed None s)
  ∧ listed (Some "true") s ++ listed (Some "false") s ≡ₚ listed None s
  ∧ (∀ available, available ≠ Some "true" → available ≠ Some "false" →
       listed available s = listed None s)
  ∧ sorted_desc (λ v, createdAt (b_row (book v))) (listed None s).
Proof.
  assert (listed (Some "true") s
          = filter (λ v, isAvailable v = true) (listed None s)) as Htrue.
  { unfold listed; simpl.
    rewrite (filter_fmap_list with_status (λ v, isAvailable v = true)).
    f_equal. apply list_filter_iff. intros b; simpl.
    by rewrite bool_decide_eq_true. }
  assert (listed (Some "false") s
          = filter (λ v, isAvailable v = false) (listed None s)) as Hfalse.
  { unfold listed; simpl.
    rewrite (filter_fmap_list with_status (λ v, isAvailable v = false)).
    f_equal. apply list_filter_iff. intros b; simpl.
    rewrite bool_decide_eq_false. lia. }
  split_and!; [done|done| | |].
  - rewrite Htrue, Hfalse.
    rewrite (list_filter_iff (λ v, isAvailable v = false)
               (λ v, ¬ isAvailable v = true)).
    + apply filter_app_complement.
    + intros v. by destruct (isAvailable v).
  - intros available Hnt Hnf. unfold listed; simpl.
    destruct (decide (available = Some "true")); [done|].
    by destruct (decide (available = Some "false")).
  - unfold listed; simpl. rewrite <- list_fmap_compose.
    by apply query_sorted.
Qed.

(** An unknown value of the parameter lists everything. *)
Lemma list_filter_by_flag_witness :
  listed (Some "yes") store_rented = listed None store_rented.
Proof.
  refine (proj1 (proj2 (proj2 (proj2 (list_filter_by_flag store_rented))))
            (Some "yes") _ _); discriminate.
Defined.

(** ** The My Books page on the list response *)

Lemma collect_loop (me : string) (b : BookWithStatus)
    (l : list RentalWithUser) (acc : list ClientRental) :
  foldl (λ acc rental,
           if decide (u_id (user rental) = me)
           then (acc ++ [(rental, b)])%list else acc) acc l
  = (acc ++ ((λ r, (r, b)) <$> filter (λ r, u_id (user r) = me) l))%list.
Proof.
  revert acc. induction l as [|r l IH]; intros acc; simpl.
  - by rewrite app_nil_r.
  - rewrite IH, filter_cons. destruct (decide _); csimpl; [|done].
    by rewrite <- app_assoc.
Qed.

(** On a book whose current rental is the first of its rentals, the check
    against the entries already collected always finds it. *)
Lemma collect_book_head (me : string) (acc : list ClientRental)
    (b : BookWithStatus) :
  currentRental b = head (b_rentals (book b)) →
  collect_book me acc b = (acc ++ mine me b)%list.
Proof.
  intros Hcur. unfold collect_book, mine. rewrite collect_loop, Hcur.
  destruct (b_rentals (book b)) as [|cur l] eqn:Hl; simpl; [done|].
  destruct (decide (u_id (user cur) = me)) as [Hme|]; [|done].
  rewrite filter_cons. destruct (decide _) as [_|]; [|done]. csimpl.
  destruct (existsb _ _) eqn:Hex; [done|].
  exfalso. apply not_true_iff_false in Hex. apply Hex.
  apply existsb_exists. exists (cur, b). split.
  - apply in_or_app. right. by left.
  - by apply bool_decide_eq_true.
Qed.

Lemma collect_all_head (me : string) (l : list BookWithStatus)
    (acc : list ClientRental) :
  Forall (λ b, currentRental b = head (b_rentals (book b))) l →
  foldl (collect_book me) acc l = (acc ++ (l ≫= mine me))%list.
Proof.
  revert acc. induction l as [|b l IH]; intros acc Hall; csimpl.
  - by rewrite app_nil_r.
  - apply Forall_cons in Hall as [Hb Hall].
    rewrite collect_book_head, IH by done. by rewrite <- app_assoc.
Qed.

Lemma listed_current_is_head (available : option string) (s : Store) :
  Forall (λ b, currentRental b = head (b_rentals (book b)))
    (listed available s).
Proof.
  apply Forall_forall. intros v Hv.
  by apply elem_of_listed in Hv as (id & row & _ & -> & _).
Qed.

Lemma listed_inj (available : option string) (s : Store)
    (v1 v2 : BookWithStatus) :
  v1 ∈ listed available s → v2 ∈ listed available s →
  b_id (book v1) = b_id (book v2) → v1 = v2.
Proof.
  intros Hv1 Hv2 Heq.
  apply elem_of_listed in Hv1 as (id1 & row1 & Hb1 & -> & _).
  apply elem_of_listed in Hv2 as (id2 & row2 & Hb2 & -> & _).
  simpl in Heq. subst id2. congruence.
Qed.

Lemma elem_of_mine (s : Store) (me id : string) (row : BookRow)
    (x : ClientRental) :
  x ∈ mine me (book_view s (id, row)) ↔
  ∃ rid r, active s id rid r ∧ userId r = me
           ∧ x = (include_user s (rid, r), book_view s (id, row)).
Proof.
  unfold mine. rewrite list_elem_of_fmap. split.
  - intros (y & -> & Hy). apply list_elem_of_filter in Hy as [Hme Hy].
    simpl in Hy. apply list_elem_of_fmap in Hy as ([rid r] & -> & Hin).
    apply elem_of_active_rentals in Hin. exists rid, r. done.
  - intros (rid & r & Hact & Hme & ->). eexists. split; [reflexivity|].
    apply list_elem_of_filter. split; [done|]. simpl.
    apply list_elem_of_fmap. exists (rid, r). split; [done|].
    by apply elem_of_active_rentals.
Qed.

Lemma mine_NoDup (s : Store) (me id : string) (row : BookRow) :
  NoDup (mine me (book_view s (id, row))).
Proof.
  unfold mine. apply NoDup_fmap_2_strong.
  - intros x y _ _ Heq. by injection Heq.
  - apply NoDup_filter. simpl. apply NoDup_fmap_2_strong.
    + intros [i1 r1] [i2 r2] _ _ Heq. by injection Heq as -> ->.
    + apply NoDup_filter, NoDup_map_to_list.
Qed.

Lemma fetchData_rentals (s : Store) (session : option Session)
    (uid : string) :
  session_user_id session = Some uid →
  fetchData session s
  = Some (my_books uid (listed None s),
          sort_desc (λ x : ClientRental, rentedAt (r_row x.1))
            (listed None s ≫= mine uid))
  ∧ ∀ x, x ∈ listed None s ≫= mine uid ↔
         ∃ id row rid r,
           books s !! id = Some row ∧ active s id rid r ∧ userId r = uid
           ∧ x = (include_user s (rid, r), book_view s (id, row)).
Proof.
  intros Hs. split.
  - unfold fetchData. rewrite Hs, books_GET_listed; simpl.
    unfold my_rentals.
    by rewrite (collect_all_head uid (listed None s) [])
      by apply listed_current_is_head.
  - intros x. rewrite list_elem_of_bind. split.
    + intros (v & Hx & Hv).
      apply elem_of_listed in Hv as (id & row & Hb & -> & _).
      apply elem_of_mine in Hx as (rid & r & Hact & Hme & ->).
      exists id, row, rid, r. done.
    + intros (id & row & rid & r & Hb & Hact & Hme & ->).
      exists (book_view s (id, row)). split.
      * apply elem_of_mine. eauto.
      * apply elem_of_listed. exists id, row.
        split_and!; first [done | by intros [=]].
Qed.

(** X13. On the list response the "my rentals" list of the page holds
    exactly the open rentals of the signed-in user, each paired with its
    book as listed: the check of currentRental against the collected entries
    adds nothing twice, no rental identifier occurs twice, and the entries
    are ordered by rent time, newest first. *)
Theorem my_rentals_are_my_open_rentals (s : Store) (session : option Session)
    (uid : string) :
  session_user_id session = Some uid →
  ∃ myBooks myRentals,
    fetchData session s = Some (myBooks, myRentals)
    ∧ (∀ x, x ∈ myRentals ↔
            ∃ id row rid r,
              books s !! id = Some row ∧ active s id rid r ∧ userId r = uid
              ∧ x = (include_user s (rid, r), book_view s (id, row)))
    ∧ NoDup ((λ x : ClientRental, r_id x.1) <$> myRentals)
    ∧ sorted_desc (λ x : ClientRental, rentedAt (r_row x.1)) myRentals.
Proof.
  intros Hs. destruct (fetchData_rentals s session uid Hs) as [Hfetch Hin].
  eexists _, _. split; [exact Hfetch|]. split_and!.
  - intros x. by rewrite elem_of_sort_desc.
  - apply NoDup_fmap_2_strong.
    + intros x y Hx Hy Heq. rewrite elem_of_sort_desc in Hx, Hy.
      apply Hin in Hx as (id1 & row1 & rid1 & r1 & Hb1 & Ha1 & _ & ->).
      apply Hin in Hy as (id2 & row2 & rid2 & r2 & Hb2 & Ha2 & _ & ->).
      simpl in Heq. subst rid2.
      destruct Ha1 as (Hr1 & Hk1 & _), Ha2 as (Hr2 & Hk2 & _).
      assert (r1 = r2) as -> by congruence.
      assert (id1 = id2) as -> by congruence.
      assert (row1 = row2) as -> by congruence. done.
    + rewrite sort_desc_Permutation. apply NoDup_bind.
      * intros v1 v2 x Hv1 Hv2 Hx1 Hx2.
        apply list_elem_of_fmap in Hx1 as (y1 & -> & _).
        apply list_elem_of_fmap in Hx2 as (y2 & [= _ ->] & _). done.
      * intros v Hv. apply elem_of_listed in Hv as (id & row & _ & -> & _).
        apply mine_NoDup.
      * eapply NoDup_fmap_1, listed_NoDup.
  - apply sort_desc_sorted.
Qed.

(** Bob, who holds b1, opens the page. *)
Lemma my_rentals_are_my_open_rentals_witness :
  ∃ myBooks myRentals,
    fetchData (signed_in "u2") store_rented = Some (myBooks, myRentals)
    ∧ NoDup ((λ x : ClientRental, r_id x.1) <$> myRentals).
Proof.
  destruct (my_rentals_are_my_open_rentals store_rented (signed_in "u2") "u2")
    as (mb & mr & Heq & _ & Hnd & _).
  - vm_compute; reflexivity.
  - exists mb, mr. split; assumption.
Defined.

Lemma sorted_desc_filter {A} (key : A → Z) (P : A → Prop)
    `{∀ x, Decision (P x)} (l : list A) :
  sorted_desc key l → sorted_desc key (filter P l).
Proof.
  unfold sorted_desc. intros Hs.
  assert (Transitive (λ x y : A, key y ≤ key x)) as Htrans
    by (intros x y z; lia).
  apply Sorted_StronglySorted in Hs; [|done].
  apply StronglySorted_Sorted.
  induction Hs as [|x l Hs IH Hall]; [constructor|].
  rewrite filter_cons. destruct (decide (P x)); [|done].
  constructor; [done|].
  apply Forall_forall. intros y Hy. apply list_elem_of_filter in Hy as [_ Hy].
  rewrite Forall_forall in Hall. by apply Hall.
Qed.

Lemma elem_of_my_books (s : Store) (uid : string) (v : BookWithStatus) :
  v ∈ my_books uid (listed None s) ↔
  ∃ id row, books s !! id = Some row ∧ ownerId row = uid
            ∧ v = book_view s (id, row).
Proof.
  unfold my_books. rewrite list_elem_of_filter, elem_of_listed. split.
  - intros (Hown & id & row & Hb & -> & _). exists id, row. done.
  - intros (id & row & Hb & Hown & ->). split; [done|].
    exists id, row. split_and!; first [done | by intros [=]].
Qed.

(** X14. The owned tab of the page, which filters the whole list response by
    owner id in the browser, shows the books that GET /api/books/my returns
    for the same user: the same books, each once, and both newest first. *)
Theorem owned_tab_matches_endpoint (s : Store) (session : option Session)
    (uid : string) :
  session_user_id session = Some uid →
  ∃ myBooks myRentals l,
    fetchData session s = Some (myBooks, myRentals)
    ∧ books_my_GET session s = (json (OwnedBooksBody l), s)
    ∧ book <$> myBooks ≡ₚ l
    ∧ (∀ v, v ∈ myBooks ↔
            ∃ id row, books s !! id = Some row ∧ ownerId row = uid
                      ∧ v = book_view s (id, row))
    ∧ sorted_desc (λ v, createdAt (b_row (book v))) myBooks
    ∧ sorted_desc (λ b, createdAt (b_row b)) l.
Proof.
  intros Hs.
  destruct (books_my_GET_rows s session uid Hs)
    as (l & Hl & Hin & Hnd & Hsorted).
  unfold fetchData. rewrite Hs, books_GET_listed; simpl.
  eexists _, _, l. split; [reflexivity|]. split; [done|].
  pose proof (elem_of_my_books s uid) as Hmine.
  split_and!; [|done| |done].
  - apply NoDup_Permutation.
    + apply NoDup_fmap_2_strong.
      * intros v1 v2 Hv1 Hv2 Heq.
        apply Hmine in Hv1 as (id1 & row1 & _ & _ & ->).
        apply Hmine in Hv2 as (id2 & row2 & _ & _ & ->).
        simpl in Heq. unfold book_view. by rewrite Heq.
      * unfold my_books. eapply NoDup_filter, NoDup_fmap_1, listed_NoDup.
    + eapply NoDup_fmap_1, Hnd.
    + intros b. rewrite Hin, list_elem_of_fmap. split.
      * intros (v & -> & Hv). apply Hmine in Hv as (id & row & ? & ? & ->).
        exists id, row. done.
      * intros (id & row & Hb & Hown & ->).
        exists (book_view s (id, row)). split; [done|].
        apply Hmine. eauto.
  - unfold my_books. apply sorted_desc_filter.
    unfold listed; simpl. rewrite <- list_fmap_compose.
    by apply query_sorted.
Qed.

(** Ann opens the page in the store where her book is rented. *)
Lemma owned_tab_matches_endpoint_witness :
  ∃ myBooks myRentals l,
    fetchData (signed_in "u1") store_rented = Some (myBooks, myRentals)
    ∧ books_my_GET (signed_in "u1") store_rented
      = (json (OwnedBooksBody l), store_rented)
    ∧ book <$> myBooks ≡ₚ l.
Proof.
  destruct (owned_tab_matches_endpoint store_rented (signed_in "u1") "u1")
    as (mb & mr & l & H1 & H2 & H3 & _).
  - vm_compute; reflexivity.
  - exists mb, mr, l. split_and!; assumption.
Defined.

(** ** The buttons of a card and the answers of the server *)

Lemma session_user_id_Some (session : option Session) (uid : string) :
  session_user_id session = Some uid →
  session_id session = Some uid ∧ session ≠ None.
Proof.
  unfold session_user_id, session_id. destruct session as [sess|]; [|done].
  destruct ((Some sess ≫= s_user) ≫= su_id) as [x|]; simpl; [|done].
  destruct (String.eqb x ""); simpl; [done|]. by intros [= ->].
Qed.

(** A serialized book whose derived fields agree with the store is either
    available and free, or not available with the one open rental of the
    book as its current rental. *)
Lemma available_or_rented (s : Store) (id : string) (v : BookWithStatus) :
  single_active s →
  b_id (book v) = id →
  derived_fields_ok s v →
  (isAvailable v = true ∧ currentRental v = None ∧ no_active s id)
  ∨ (isAvailable v = false
     ∧ ∃ x, currentRental v = Some x
            ∧ unique_active s id (r_id x) (r_row x)
            ∧ u_id (user x) = userId (r_row x)).
Proof.
  intros Hinv Hid (Hav & Hnone & Hsome & _). rewrite Hid in *.
  destruct (isAvailable v) eqn:Havail.
  - left. assert (no_active s id) as Hno by by apply Hav.
    split_and!; [done| |done]. by apply Hnone.
  - right. split; [done|].
    destruct (currentRental v) as [x|] eqn:Hcur.
    + destruct (Hsome x eq_refl) as [Hact Hx]. exists x.
      split_and!; [done| |by rewrite Hx].
      by apply single_active_unique.
    + assert (no_active s id) as Hno by by apply Hnone.
      apply Hav in Hno. congruence.
Qed.

(** X15. In a store where no book has two open rentals, the buttons a card
    shows for a book of the list response are the actions the server accepts
    on that store. A visitor without a session gets no enabled action and no
    delete button. For a signed-in user: a Rent button means the book is
    free, and Rent succeeds (201) when the user has a row in the user table
    and the generated identifier is new; a Return button means Return
    succeeds (200); the disabled Rented button means both Rent and Return
    are refused; and the delete button is there exactly when Delete
    succeeds. A session object without a user id gets an enabled Rent
    button on a free book, and the server answers 401. *)
Theorem card_buttons_match_server (s : Store) (available : option string)
    (v : BookWithStatus) (loading : bool) :
  single_active s →
  v ∈ listed available s →
  (card_button None loading v = RentButton true
   ∨ card_button None loading v = RentedButton)
  ∧ card_delete_button None loading v = None
  ∧ (∀ session uid, session_user_id session = Some uid →
      (∀ d, card_button session loading v = RentButton d →
            d = loading
            ∧ no_active s (b_id (book v))
            ∧ ∀ newId now,
                rentals s !! newId = None → is_Some (users s !! uid) →
                status (rent_POST session (b_id (book v)) newId now s).1 = 201)
      ∧ (∀ d, card_button session loading v = ReturnButton d →
              d = loading
              ∧ ∀ now,
                  status (rent_DELETE session (b_id (book v)) now s).1 = 200)
      ∧ (card_button session loading v = RentedButton →
           ∀ newId now,
             rent_POST session (b_id (book v)) newId now s = (AlreadyRented, s)
             ∧ rent_DELETE session (b_id (book v)) now s
               = (OnlyRenterCanReturn, s))
      ∧ (is_Some (card_delete_button session loading v)
         ↔ status (book_DELETE session (b_id (book v)) s).1 = 200))
  ∧ (∀ session, session ≠ None → session_user_id session = None →
       isAvailable v = true →
       card_button session loading v = RentButton loading
       ∧ ∀ newId now,
           rent_POST session (b_id (book v)) newId now s = (Unauthorized, s)).
Proof.
  intros Hinv Hv. apply elem_of_listed in Hv as (id & row & Hb & -> & _).
  pose proof (available_or_rented s id (book_view s (id, row)) Hinv eq_refl
                (book_view_derived s id row)) as Hcases.
  unfold card_button, card_delete_button, isRentedByMe, isOwner.
  change (b_id (book (book_view s (id, row)))) with id.
  change (u_id (owner (book (book_view s (id, row))))) with (ownerId row).
  assert (∀ session uid, session_user_id session = Some uid →
            bool_decide (Some uid = Some (ownerId row)) = true
            ↔ status (book_DELETE session id s).1 = 200) as Hdelete.
  { intros session uid Hs.
    destruct (decide (ownerId row = uid)) as [Hown|Hne].
    - rewrite bool_decide_eq_true_2 by congruence. subst uid.
      by rewrite (book_DELETE_success s session id row).
    - rewrite bool_decide_eq_false_2 by congruence.
      by rewrite (book_DELETE_forbidden s session uid id row). }
  destruct Hcases as [(-> & Hcur & Hno)|(-> & x & Hcur & Hu & Huser)];
    [|rewrite Hcur]; simpl.
  - split_and!.
    + left. by rewrite orb_true_r.
    + done.
    + intros session uid Hs.
      destruct (session_user_id_Some _ _ Hs) as [Hsid Hsome].
      rewrite Hsid. split_and!; [|done|done|].
      * intros d [= <-]. split_and!; [|done|].
        -- rewrite bool_decide_eq_false_2 by done. apply orb_false_r.
        -- intros newId now Hfresh Huser.
           by rewrite (rent_POST_created s session uid id newId now row).
      * rewrite <- (Hdelete session uid Hs).
        destruct (bool_decide _); split; first [done | by intros [? [=]]
                                               | by eexists].
    + intros session Hsess Hs _. split.
      * rewrite bool_decide_eq_false_2 by done. by rewrite orb_false_r.
      * intros newId now. unfold rent_POST. by rewrite Hs.
  - split_and!.
    + right. done.
    + done.
    + intros session uid Hs.
      destruct (session_user_id_Some _ _ Hs) as [Hsid Hsome].
      rewrite Hsid, Huser.
      destruct (decide (userId (r_row x) = uid)) as [Hme|Hne].
      * rewrite bool_decide_eq_true_2 by congruence.
        split_and!; [done| |done|].
        -- intros d [= <-]. split; [done|]. intros now. subst uid.
           by rewrite (rent_DELETE_returned s session id now (r_id x)
                         (r_row x)).
        -- rewrite <- (Hdelete session uid Hs).
           destruct (bool_decide _); split; first [done | by intros [? [=]]
                                                  | by eexists].
      * rewrite bool_decide_eq_false_2 by congruence.
        split_and!; [done|done| |].
        -- intros _ newId now. destruct Hu as [Hact _]. split.
           ++ by eapply rent_POST_conflict.
           ++ eapply rent_DELETE_forbidden; [done| |done].
              split; [done|]. intros rid' r' Hact'. by eapply Hinv.
        -- rewrite <- (Hdelete session uid Hs).
           destruct (bool_decide _); split; first [done | by intros [? [=]]
                                                  | by eexists].
    + intros session Hsess Hs [=].
Qed.

Lemma single_active_store_rented : single_active store_rented.
Proof.
  intros id rid r rid' r' [Hr _] [Hr' _]. simpl in Hr, Hr'.
  apply lookup_singleton_Some in Hr as [<- _].
  by apply lookup_singleton_Some in Hr' as [<- _].
Qed.

(** The card of the rented book b1: a visitor gets no delete button, and
    the Return button shown to Bob is honoured by the server. *)
Lemma card_buttons_match_server_witness :
  card_delete_button None false (book_view store_rented ("b1", book_ex)) = None
  ∧ status (rent_DELETE (signed_in "u2") "b1" 20 store_rented).1 = 200.
Proof.
  assert (book_view store_rented ("b1", book_ex) ∈ listed None store_rented)
    as Hin.
  { apply elem_of_listed. exists "b1", book_ex.
    split_and!; [vm_compute; reflexivity|reflexivity|discriminate
                |discriminate]. }
  destruct (card_buttons_match_server store_rented None
              (book_view store_rented ("b1", book_ex)) false
              single_active_store_rented Hin)
    as (_ & Hdel & Hsigned & _).
  split; [exact Hdel|].
  destruct (Hsigned (signed_in "u2") "u2") as (_ & Hret & _).
  - vm_compute; reflexivity.
  - refine (proj2 (Hret false _) 20). vm_compute; reflexivity.
Defined.

(** ** The detail page *)

Lemma book_GET_absent (s : Store) (id : string) :
  books s !! id = None → book_GET id s = (BookNotFound, s).
Proof. intros Hb. unfold_handler. by rewrite Hb. Qed.

(** X16. The action button of the detail page, computed from the Get
    response in a store where no book has two open rentals, is an action the
    server accepts for the signed-in user: with a Rent button the book is
    free, and Rent succeeds (201) when the user has a row in the user table
    and the generated identifier is new; with a Return button Return
    succeeds (200); and when the page shows no action button both Rent and
    Return are refused. A visitor without a session only ever gets the
    disabled Rent button or none. A session object without a user id gets
    an enabled Rent button on a free book, and the server answers 401. *)
Theorem detail_button_matches_server (s : Store) (id : string)
    (v : BookWithStatus) (actionLoading : bool) :
  single_active s →
  book_GET id s = (json (BookBody v), s) →
  (detail_button None actionLoading v = Some (RentButton true)
   ∨ detail_button None actionLoading v = None)
  ∧ (∀ session uid, session_user_id session = Some uid →
      (∀ d, detail_button session actionLoading v = Some (RentButton d) →
            d = actionLoading
            ∧ no_active s id
            ∧ ∀ newId now,
                rentals s !! newId = None → is_Some (users s !! uid) →
                status (rent_POST session id newId now s).1 = 201)
      ∧ (∀ d, detail_button session actionLoading v = Some (ReturnButton d) →
              d = actionLoading
              ∧ ∀ now, status (rent_DELETE session id now s).1 = 200)
      ∧ (detail_button session actionLoading v = None →
           ∀ newId now,
             rent_POST session id newId now s = (AlreadyRented, s)
             ∧ rent_DELETE session id now s = (OnlyRenterCanReturn, s)))
  ∧ (∀ session, session ≠ None → session_user_id session = None →
       isAvailable v = true →
       detail_button session actionLoading v
       = Some (RentButton actionLoading)
       ∧ ∀ newId now, rent_POST session id newId now s = (Unauthorized, s)).
Proof.
  intros Hinv Hget.
  destruct (books s !! id) as [row|] eqn:Hb.
  2:{ rewrite book_GET_absent in Hget by done. discriminate. }
  destruct (book_GET_found s id row Hb) as (v' & Hget' & Hid & _ & Hok).
  rewrite Hget in Hget'. injection Hget' as <-.
  pose proof (available_or_rented s id v Hinv Hid Hok) as Hcases.
  unfold detail_button, isRentedByMe.
  destruct Hcases as [(-> & Hcur & Hno)|(-> & x & Hcur & Hu & Huser)];
    [|rewrite Hcur]; simpl.
  - split_and!.
    + left. by rewrite orb_true_r.
    + intros session uid Hs.
      destruct (session_user_id_Some _ _ Hs) as [Hsid Hsess].
      split_and!; [|done|done].
      intros d [= <-]. split_and!; [|done|].
      * rewrite bool_decide_eq_false_2 by done. apply orb_false_r.
      * intros newId now Hfresh Huser.
        by rewrite (rent_POST_created s session uid id newId now row).
    + intros session Hsess Hs _. split.
      * rewrite bool_decide_eq_false_2 by done. by rewrite orb_false_r.
      * intros newId now. unfold rent_POST. by rewrite Hs.
  - split_and!.
    + right. done.
    + intros session uid Hs.
      destruct (session_user_id_Some _ _ Hs) as [Hsid Hsess].
      rewrite Hsid, Huser.
      destruct (decide (userId (r_row x) = uid)) as [Hme|Hne].
      * rewrite bool_decide_eq_true_2 by congruence.
        split_and!; [done| |done].
        intros d [= <-]. split; [done|]. intros now. subst uid.
        by rewrite (rent_DELETE_returned s session id now (r_id x) (r_row x)).
      * rewrite bool_decide_eq_false_2 by congruence.
        split_and!; [done|done|].
        intros _ newId now. destruct Hu as [Hact Huniq]. split.
        -- by eapply rent_POST_conflict.
        -- eapply rent_DELETE_forbidden; [done| |done]. by split.
    + intros session Hsess Hs [=].
Qed.

(** The detail page of b1 while Bob holds it: Ann gets no action button,
    and the server would refuse her. *)
Lemma detail_button_matches_server_witness :
  rent_DELETE (signed_in "u1") "b1" 20 store_rented
  = (OnlyRenterCanReturn, store_rented).
Proof.
  destruct (detail_button_matches_server store_rented "b1"
              _ false single_active_store_rented eq_refl)
    as (_ & Hsigned & _).
  destruct (Hsigned (signed_in "u1") "u1") as (_ & _ & Hnone).
  - vm_compute; reflexivity.
  - refine (proj2 (Hnone _ "r2" 20)). vm_compute; reflexivity.
Defined.

(** ** The home page *)

(** X17. The filter of the home page: with "available" selected the page
    receives exactly the books that the server lists for available=true, all
    of them with isAvailable true and no currentRental; with "rented"
    selected those for available=false, all with isAvailable false and a
    currentRental; with any other selection the whole list. *)
Theorem home_page_filter (s : Store) :
  fetchBooks "available" s = Some (listed (Some "true") s)
  ∧ Forall (λ v, isAvailable v = true ∧ currentRental v = None)
      (listed (Some "true") s)
  ∧ fetchBooks "rented" s = Some (listed (Some "false") s)
  ∧ Forall (λ v, isAvailable v = false ∧ is_Some (currentRental v))
      (listed (Some "false") s)
  ∧ (∀ selected, selected ≠ "available" → selected ≠ "rented" →
       fetchBooks selected s = Some (listed None s)).
Proof.
  split_and!.
  - reflexivity.
  - apply Forall_forall. intros v Hv.
    apply elem_of_listed in Hv as (id & row & _ & -> & Hno & _).
    specialize (Hno eq_refl). apply active_rentals_nil in Hno.
    unfold book_view, with_status; simpl. by rewrite Hno.
  - reflexivity.
  - apply Forall_forall. intros v Hv.
    apply elem_of_listed in Hv as (id & row & _ & -> & _ & Hsome).
    destruct (Hsome eq_refl) as (rid & r & Hact).
    apply (elem_of_active_rentals s id (rid, r)) in Hact.
    unfold book_view, with_status; simpl.
    destruct (filter _ _) as [|x l]; [by apply not_elem_of_nil in Hact|].
    simpl. split; [done|by eexists].
  - intros selected Hna Hnr. unfold fetchBooks, fetchBooks_params.
    rewrite (decide_False (P := selected = "available")) by done.
    rewrite (decide_False (P := selected = "rented")) by done.
    rewrite lookup_empty. by rewrite books_GET_listed.
Qed.

(** The default selection "all". *)
Lemma home_page_filter_witness :
  fetchBooks "all" store_rented = Some (listed None store_rented).
Proof.
  refine (proj2 (proj2 (proj2 (proj2 (home_page_filter store_rented))))
            "all" _ _); discriminate.
Defined.

(** ** The add-book dialog *)

Lemma min_1_nonempty (x : string) :
  (1 <=? String.length x)%nat = true ↔ x ≠ "".
Proof. destruct x; simpl; split; done. Qed.

(** X18. The dialog sends a request exactly when the title and the author
    are not empty and a cover image has been uploaded. Every request it
    sends is accepted when the caller is signed in and has a row in the user
    table (the identifier being new): the answer is 201, never the 400 of a
    missing field nor the 500 of a value of the wrong type, and the stored
    book has the values of the form as they are, an optional field left
    empty included, and the caller as owner. *)
Theorem dialog_requests_are_accepted (coverImage : option string)
    (data : BookForm) :
  (handleSubmit coverImage data = None
   ↔ form_title data = "" ∨ form_author data = ""
     ∨ truthy coverImage = false)
  ∧ ∀ request, handleSubmit coverImage data = Some request →
      ∀ s session uid newId now,
        session_user_id session = Some uid →
        is_Some (users s !! uid) →
        books s !! newId = None →
        status (books_POST session request newId now s).1 = 201
        ∧ books (books_POST session request newId now s).2
          = <[newId := {| title := form_title data;
                          author := form_author data;
                          isbn := form_isbn data;
                          description := form_description data;
                          coverImage := coverImage;
                          ownerId := uid; createdAt := now |}]> (books s).
Proof.
  unfold handleSubmit, formSchema, onSubmit. split.
  - destruct (form_title data) as [|c1 t]; simpl; [split; auto|].
    destruct (form_author data) as [|c2 a]; simpl; [split; auto|].
    destruct (truthy coverImage); simpl.
    + split; [done|]. intros [?|[?|?]]; done.
    + split; [auto|done].
  - intros request Hreq s session uid newId now Hs Huser Hfresh.
    destruct (1 <=? String.length (form_title data))%nat eqn:Ht;
      [|done].
    destruct (1 <=? String.length (form_author data))%nat eqn:Ha;
      [|done].
    destruct (truthy coverImage) eqn:Hc; simpl in Hreq; [|done].
    injection Hreq as <-.
    apply min_1_nonempty in Ht, Ha.
    apply truthy_Some in Hc as (c & -> & Hc).
    rewrite (books_POST_created s session uid _ newId now
               (form_title data) (form_author data) c
               (form_isbn data) (form_description data));
      [done|done|done|done|done|done|done|done| | |done|done].
    + simpl. by destruct (form_isbn data).
    + simpl. by destruct (form_description data).
Qed.

(** Bob submits the form with the optional fields left empty. *)
Lemma dialog_requests_are_accepted_witness :
  status (books_POST (signed_in "u2")
            {| body_title := Some (JString "HtDP");
               body_author := Some (JString "Felleisen");
               body_isbn := Some (JString "");
               body_description := Some (JString "");
               body_coverImage := Some (JString "htdp.png") |} "b2" 7
            store_rented).1
  = 201.
Proof.
  refine (proj1 (proj2 (dialog_requests_are_accepted (Some "htdp.png")
            {| form_title := "HtDP"; form_author := "Felleisen";
               form_isbn := Some ""; form_description := Some "" |})
            _ _ store_rented (signed_in "u2") "u2" "b2" 7 _ _ _)).
  - vm_compute; reflexivity.
  - vm_compute; reflexivity.
  - vm_compute. by eexists.
  - vm_compute; reflexivity.
Defined.

(** ** The actions of the My Books page *)

(** X19. In a store where no book has two open rentals, every entry of the
    rentals tab is rendered with its Return button, and a Return of its book
    by the signed-in user succeeds and closes exactly the rental of the
    entry; every book of the owned tab can be deleted by the user. *)
Theorem my_books_page_actions (s : Store) (session : option Session)
    (uid : string) (myBooks : list BookWithStatus)
    (myRentals : list ClientRental) (now : Z) :
  session_user_id session = Some uid →
  single_active s →
  fetchData session s = Some (myBooks, myRentals) →
  Forall (λ x : ClientRental,
            rental_return_button x = true
            ∧ status (rent_DELETE session (b_id (book x.2)) now s).1 = 200
            ∧ rentals (rent_DELETE session (b_id (book x.2)) now s).2
              = <[r_id x.1 := returned (r_row x.1) now]> (rentals s))
    myRentals
  ∧ Forall (λ v, status (book_DELETE session (b_id (book v)) s).1 = 200)
      myBooks.
Proof.
  intros Hs Hinv Hfetch.
  destruct (fetchData_rentals s session uid Hs) as [Hfetch' Hin].
  rewrite Hfetch in Hfetch'. injection Hfetch' as -> ->.
  split.
  - apply Forall_forall. intros x Hx. rewrite elem_of_sort_desc in Hx.
    apply Hin in Hx as (id & row & rid & r & Hb & Hact & Hme & ->); simpl.
    pose proof (single_active_unique s id rid r Hinv Hact) as Hu.
    subst uid.
    rewrite (rent_DELETE_returned s session id now rid r) by done.
    destruct Hact as (_ & _ & Hopen).
    unfold rental_return_button; simpl.
    by rewrite bool_decide_eq_true_2.
  - apply Forall_forall. intros v Hv.
    apply elem_of_my_books in Hv as (id & row & Hb & Hown & ->); simpl.
    subst uid. by rewrite (book_DELETE_success s session id row).
Qed.

(** Bob's rentals tab while he holds b1. *)
Lemma my_books_page_actions_witness :
  ∃ myBooks myRentals,
    fetchData (signed_in "u2") store_rented = Some (myBooks, myRentals)
    ∧ Forall (λ x : ClientRental,
                status (rent_DELETE (signed_in "u2") (b_id (book x.2)) 20
                          store_rented).1 = 200) myRentals.
Proof.
  assert (single_active store_rented) as Hinv.
  { intros id rid r rid' r' [Hr _] [Hr' _]. simpl in Hr, Hr'.
    apply lookup_singleton_Some in Hr as [<- _].
    by apply lookup_singleton_Some in Hr' as [<- _]. }
  eexists _, _. split; [vm_compute; reflexivity|].
  refine (Forall_impl _ _ _ (proj1 (my_books_page_actions store_rented
            (signed_in "u2") "u2" _ _ 20 _ Hinv _)) _).
  - vm_compute; reflexivity.
  - vm_compute; reflexivity.
  - intros x (_ & Hok & _). exact Hok.
Defined.

(** ** What an operation can do to a rental *)


